(** * ConsumptieTracker: the ledger core of [src/app/index.tsx]

    A shallow embedding of the purchase ledger of the ConsumptieTracker app
    (items with a price locked at purchase, settings, payment batches, CSV
    export) and the properties of it that the specification states.

    Conventions of the embedding.
    - A JavaScript [number] holding an amount of cents is a [Z]; the amounts
      in play are integers ([Math.round] in [SettingsScreen.save]).  A
      [number] is exact for integers up to [MAX_SAFE_INTEGER] and prints
      in plain decimal below 1e21; where a statement depends on it, it
      says so ([exact_amounts]).  A price field that parses to [Infinity]
      is outside the embedding.
    - A JavaScript string is a [string]; its characters stand for code units.
    - An optional field ([userLabel?], [paidAt?], [paymentId?], [note?]) is an
      [option]: [None] is [undefined], which [JSON.stringify] drops.
    - [AsyncStorage] is three slots, one per key; a slot is [None] when the
      key is missing or its text does not parse, the two cases in which
      [loadJSON] answers its fallback.  The hooks [useItems], [usePayments]
      and [useSettings] mirror their state to the slot on every change, so
      the state of a hook on a screen that has just mounted is read back
      from the slot (write-through).  [add], [createPayment], [remove] and
      [save] below are the handlers of such a screen, and a run of actions
      takes each action on a freshly mounted screen.  One screen lets its
      state go stale: [PaymentsScreen] never updates the items it loaded;
      [PaymentsScreen_remove] is its handler for a visit with several
      presses.
    - [Crypto.randomUUID] and [nowISO] draw from two oracles carried by the
      world; every call consumes one reading.
    - Rendering, navigation, haptics, alerts and the share sheet store
      nothing and are left out. *)

From Stdlib Require Import List String Ascii ZArith Lia Bool Arith.
From Stdlib Require Import DecimalString DecimalZ Permutation Sorted.
Import ListNotations.

Set Implicit Arguments.
Local Open Scope string_scope.
Local Open Scope list_scope.

(** ** Types *)

Inductive ItemType : Type := Bier | Fris | Snoep.

Record Item : Type := mkItem {
  uuid : string;
  type : ItemType;
  date : string;
  priceCents : Z;
  userLabel : option string;
  paidAt : option string;
  paymentId : option string
}.

Record Settings : Type := mkSettings {
  basePriceCents : Z;
  currencyCode : string
}.

Record PaymentBatch : Type := mkPaymentBatch {
  id : string;
  createdAt : string;
  note : option string
}.

(** The string a value of the union ['Bier' | 'Fris' | 'Snoep'] is. *)
Definition ItemType_str (t : ItemType) : string :=
  match t with
  | Bier => "Bier"
  | Fris => "Fris"
  | Snoep => "Snoep"
  end.

Definition ItemType_eqb (a b : ItemType) : bool :=
  match a, b with
  | Bier, Bier | Fris, Fris | Snoep, Snoep => true
  | _, _ => false
  end.

(** ** JavaScript operators on optional strings *)

(** Truthiness of [string | undefined]: [undefined] and ['']  are falsy. *)
Definition truthy (o : option string) : bool :=
  match o with
  | Some s => negb (s =? "")%string
  | None => false
  end.

(** [o || d] *)
Definition or_else (o : option string) (d : string) : string :=
  if truthy o then match o with Some s => s | None => d end else d.

(** [o ?? d] *)
Definition nullish (o : option string) (d : string) : string :=
  match o with
  | Some s => s
  | None => d
  end.

(** [o === s] for an optional [o] and a string [s]. *)
Definition strict_eq (o : option string) (s : string) : bool :=
  match o with
  | Some x => (x =? s)%string
  | None => false
  end.

(** [s.includes(t)] *)
Fixpoint includes (s t : string) : bool :=
  String.prefix t s ||
  match s with
  | EmptyString => false
  | String _ s' => includes s' t
  end.

(** ** The world: storage slots and the two oracles *)

Record World : Type := mkWorld {
  slot_items : option (list Item);
  slot_settings : option Settings;
  slot_payments : option (list PaymentBatch);
  uuid_src : nat -> string;
  uuid_next : nat;
  clock_src : nat -> string;
  clock_next : nat
}.

(** A storage key: how to read and how to overwrite its slot. *)
Record Key (T : Type) : Type := mkKey {
  getItem : World -> option T;
  setItem : T -> World -> World
}.

Definition K_ITEMS : Key (list Item) :=
  mkKey slot_items
    (fun v w => mkWorld (Some v) (slot_settings w) (slot_payments w)
                  (uuid_src w) (uuid_next w) (clock_src w) (clock_next w)).

Definition K_SETTINGS : Key Settings :=
  mkKey slot_settings
    (fun v w => mkWorld (slot_items w) (Some v) (slot_payments w)
                  (uuid_src w) (uuid_next w) (clock_src w) (clock_next w)).

Definition K_PAYMENTS : Key (list PaymentBatch) :=
  mkKey slot_payments
    (fun v w => mkWorld (slot_items w) (slot_settings w) (Some v)
                  (uuid_src w) (uuid_next w) (clock_src w) (clock_next w)).

(** ** A state monad over the world *)

Definition M (A : Type) : Type := World -> A * World.

Definition ret {A : Type} (a : A) : M A := fun w => (a, w).

Definition bind {A B : Type} (m : M A) (k : A -> M B) : M B :=
  fun w => let (a, w') := m w in k a w'.

Declare Scope action_scope.
Delimit Scope action_scope with action.
Notation "x <- m ;; k" := (bind m (fun x => k))
  (at level 61, m at next level, right associativity) : action_scope.
Notation "m ;;; k" := (bind m (fun _ => k))
  (at level 61, right associativity) : action_scope.
Local Open Scope action_scope.

Definition exec {A : Type} (m : M A) (w : World) : World := snd (m w).
Definition eval {A : Type} (m : M A) (w : World) : A := fst (m w).

Fixpoint mapM {A B : Type} (f : A -> M B) (l : list A) : M (list B) :=
  match l with
  | [] => ret []
  | x :: l' => y <- f x ;; ys <- mapM f l' ;; ret (y :: ys)
  end.

(** ** Helpers *)

Definition nowISO : M string :=
  fun w => (clock_src w (clock_next w),
            mkWorld (slot_items w) (slot_settings w) (slot_payments w)
              (uuid_src w) (uuid_next w) (clock_src w) (S (clock_next w))).

Definition randomUUID : M string :=
  fun w => (uuid_src w (uuid_next w),
            mkWorld (slot_items w) (slot_settings w) (slot_payments w)
              (uuid_src w) (S (uuid_next w)) (clock_src w) (clock_next w)).

Definition loadJSON {T : Type} (key : Key T) (fallback : T) : M T :=
  fun w => (match getItem key w with
            | Some v => v
            | None => fallback
            end, w).

Definition saveJSON {T : Type} (key : Key T) (value : T) : M unit :=
  fun w => (tt, setItem key value w).

(** ** Global state hooks *)

Definition default_settings : Settings := mkSettings 70 "EUR".

Definition useSettings : M Settings := loadJSON K_SETTINGS default_settings.
Definition setSettings (s : Settings) : M unit := saveJSON K_SETTINGS s.

Definition useItems : M (list Item) := loadJSON K_ITEMS [].
Definition setItems (arr : list Item) : M unit := saveJSON K_ITEMS arr.

Definition usePayments : M (list PaymentBatch) := loadJSON K_PAYMENTS [].
Definition setPayments (arr : list PaymentBatch) : M unit :=
  saveJSON K_PAYMENTS arr.

(** What the three hooks show in a world. *)
Definition items_of (w : World) : list Item := eval useItems w.
Definition payments_of (w : World) : list PaymentBatch := eval usePayments w.
Definition settings_of (w : World) : Settings := eval useSettings w.

(** ** AddScreen *)

(** The memoised [priceCents] of [AddScreen] (lines 108-111). *)
Definition AddScreen_priceCents (ty : ItemType) (settings : Settings) : Z :=
  if ItemType_eqb ty Bier
  then (basePriceCents settings * 2)%Z
  else basePriceCents settings.

(** [add] (lines 113-116), for the chosen [type] and the text of the name
    field; the feedback that follows the update of the items (haptics,
    alert, [onSaved]) stores nothing. *)
Definition add (ty : ItemType) (label : string) : M unit :=
  settings <- useSettings ;;
  items <- useItems ;;
  u <- randomUUID ;;
  d <- nowISO ;;
  let item := mkItem u ty d (AddScreen_priceCents ty settings)
                (Some label) None None in
  setItems (item :: items).

(** ** OverviewScreen *)

Section Overview.

(** [String.prototype.toLowerCase], left abstract. *)
Variable toLowerCase : string -> string.

Definition matches_search (search : string) (it : Item) : bool :=
  (search =? "")%string
  || includes (toLowerCase (or_else (userLabel it) ""))
              (toLowerCase search)
  || includes (toLowerCase (ItemType_str (type it)))
              (toLowerCase search).

(** [filtered] (lines 155-158), over the list [sorted]; the sort by date
    that produces [sorted] only reorders the items. *)
Definition filtered (sorted : list Item) (onlyUnpaid : bool)
    (search : string) : list Item :=
  filter (fun it =>
            (negb onlyUnpaid || negb (truthy (paidAt it)))
            && matches_search search it)
         sorted.

End Overview.

(** [sel.find(s => s.uuid === it.uuid)], as the condition it is used for:
    an object is truthy, [undefined] is not. *)
Definition found (sel : list Item) (it : Item) : bool :=
  match find (fun s => (uuid s =? uuid it)%string) sel with
  | Some _ => true
  | None => false
  end.

(** [{ ...it, paidAt: t, paymentId: id }] *)
Definition with_paid (it : Item) (t : option string) (pid : option string)
    : Item :=
  mkItem (uuid it) (type it) (date it) (priceCents it) (userLabel it) t pid.

(** [createPayment] (lines 201-214); [ctx_items] is [ctx.items] and
    [ctx.setItems] is [setItems]. *)
Definition createPayment (sel : list Item) (ctx_items : list Item) : M unit :=
  i <- randomUUID ;;
  c <- nowISO ;;
  let batch := mkPaymentBatch i c None in
  payments <- loadJSON K_PAYMENTS [] ;;
  saveJSON K_PAYMENTS (batch :: payments) ;;;
  updated <- mapM (fun it =>
                     if found sel it
                     then t <- nowISO ;; ret (with_paid it (Some t) (Some i))
                     else ret it)
                  ctx_items ;;
  setItems updated.

(** The button "Afrekenen" (line 195): a [Pressable] that is [disabled]
    ignores the press, otherwise [onPress] runs [createPayment] on the
    selected items and the items of the screen. *)
Definition Afrekenen_disabled (selectedItems : list Item) : bool :=
  (List.length selectedItems =? 0)%nat.

Definition Afrekenen_press (selectedItems : list Item) : M unit :=
  if Afrekenen_disabled selectedItems
  then ret tt
  else items <- useItems ;; createPayment selectedItems items.

(** ** PaymentsScreen *)

(** [totalFor] (line 221), over the [items] of the screen.  The sum is
    the one of the code while the running total is an integer that a
    [number] holds exactly ([exact_amounts]). *)
Definition totalFor (items : list Item) (p : PaymentBatch) : Z :=
  fold_left (fun a b => (a + priceCents b)%Z)
            (filter (fun it => strict_eq (paymentId it) (id p)) items)
            0%Z.

(** [String(n)] for an integer [n] that prints in plain decimal, which
    [String] does for magnitudes below 1e21. *)
Definition String_of_number (n : Z) : string :=
  NilZero.string_of_int (Z.to_int n).

Definition csv_header : string :=
  "type,prijs_cents,datum,user,betaald_op,batch_id".

(** The array [rows] that [shareCSV] builds (lines 224-232): the header,
    then one [push] per item of the batch. *)
Definition shareCSV_rows (items : list Item) (p : PaymentBatch)
    : list string :=
  fold_left
    (fun rows it =>
       rows ++ [String.concat ","
                  [ItemType_str (type it);
                   String_of_number (priceCents it);
                   date it;
                   nullish (userLabel it) "";
                   nullish (paidAt it) "";
                   id p]])
    (filter (fun it => strict_eq (paymentId it) (id p)) items)
    [csv_header].

(** The message handed to [Share.share] (line 233): [rows.join('\n')]. *)
Definition shareCSV (items : list Item) (p : PaymentBatch) : string :=
  String.concat (String "010"%char EmptyString) (shareCSV_rows items p).

(** [remove] (lines 236-240), pressed on a screen that has just mounted:
    its [items] and [payments] are the stored ones.  For a later press of
    the same visit see [PaymentsScreen_remove]. *)
Definition remove (p : PaymentBatch) : M unit :=
  items <- useItems ;;
  payments <- usePayments ;;
  let its := map (fun it => if strict_eq (paymentId it) (id p)
                            then with_paid it None None
                            else it) items in
  saveJSON K_ITEMS its ;;;
  setPayments (filter (fun x => negb (id x =? id p)%string) payments).

(** ** SettingsScreen *)

(** [save] (lines 271-276).  [cents] is the value of
    [Math.round(parseFloat(base.replace(',','.')) * 100)] when it is
    finite, [None] for [NaN]; [code] is the text of the currency field. *)
Definition save (cents : option Z) (code : string) : M unit :=
  match cents with
  | None => ret tt
  | Some c =>
      if (c <=? 0)%Z then ret tt
      else setSettings (mkSettings c (or_else (Some code) "EUR"))
  end.

(** ** The actions a user can take, and runs of them *)

Inductive Action : Type :=
| Add (ty : ItemType) (label : string)
| Settle (selectedItems : list Item)
| Reverse (p : PaymentBatch)
| SaveSettings (cents : option Z) (code : string).

Definition step (a : Action) : M unit :=
  match a with
  | Add ty label => add ty label
  | Settle selectedItems => Afrekenen_press selectedItems
  | Reverse p => remove p
  | SaveSettings cents code => save cents code
  end.

Definition run (acts : list Action) (w : World) : World :=
  fold_left (fun w a => exec (step a) w) acts w.

(** A fresh install: nothing stored yet. *)
Definition fresh_install (uuids clock : nat -> string) : World :=
  mkWorld None None None uuids 0 clock 0.

(** ** Pure descriptions used in the statements *)

(** Both payment fields set, or both absent. *)
Definition paid_consistent (it : Item) : Prop :=
  match paidAt it, paymentId it with
  | Some _, Some _ => True
  | None, None => True
  | _, _ => False
  end.

(** Every item that refers to a batch finds it in the batch collection. *)
Definition refs_exist (w : World) : Prop :=
  forall it b,
    In it (items_of w) -> paymentId it = Some b ->
    exists x, In x (payments_of w) /\ id x = b.

(** The clock never answers the empty text, and no item carries it as
    [paidAt]. *)
Definition nonblank_times (w : World) : Prop :=
  (forall n, clock_src w n <> "")
  /\ forall it, In it (items_of w) -> paidAt it <> Some "".

(** The world after [n] more readings of the clock. *)
Definition tick (n : nat) (w : World) : World :=
  mkWorld (slot_items w) (slot_settings w) (slot_payments w)
    (uuid_src w) (uuid_next w) (clock_src w) (clock_next w + n).

(** The items after [createPayment]: the [k]-th selected item receives the
    clock reading number [n + k]. *)
Fixpoint mark_from (sel : list Item) (i : string) (clock : nat -> string)
    (n : nat) (items : list Item) : list Item :=
  match items with
  | [] => []
  | it :: rest =>
      if found sel it
      then with_paid it (Some (clock n)) (Some i)
             :: mark_from sel i clock (S n) rest
      else it :: mark_from sel i clock n rest
  end.

Definition count_found (sel : list Item) (items : list Item) : nat :=
  List.length (filter (found sel) items).

(** What [remove] does to one item, for the batch id [b]. *)
Definition clear_batch (b : string) (it : Item) : Item :=
  if strict_eq (paymentId it) b then with_paid it None None else it.

(** One data row of the export, written out. *)
Definition csv_row (p : PaymentBatch) (it : Item) : string :=
  (ItemType_str (type it) ++ "," ++
   String_of_number (priceCents it) ++ "," ++
   date it ++ "," ++
   nullish (userLabel it) "" ++ "," ++
   nullish (paidAt it) "" ++ "," ++
   id p)%string.

(** [s] occurs in [t] as a contiguous block. *)
Definition substring_of (s t : string) : Prop :=
  exists pre post, t = (pre ++ s ++ post)%string.

(** ** Reading the export back *)

Definition comma : ascii := ","%char.
Definition line_feed : ascii := "010"%char.

(** [s.split(sep)] for a separator of one character. *)
Fixpoint split_on (sep : ascii) (s : string) : list string :=
  match s with
  | EmptyString => [EmptyString]
  | String c rest =>
      if Ascii.eqb c sep
      then EmptyString :: split_on sep rest
      else match split_on sep rest with
           | [] => [String c EmptyString]
           | f :: fs => String c f :: fs
           end
  end.

(** The character [sep] does not occur in [s]. *)
Fixpoint free_of (sep : ascii) (s : string) : bool :=
  match s with
  | EmptyString => true
  | String c s' => negb (Ascii.eqb c sep) && free_of sep s'
  end.

(** The number in the second field of a row. *)
Definition price_column (row : string) : option Z :=
  match nth_error (split_on comma row) 1 with
  | Some f => option_map Z.of_int (NilZero.int_of_string f)
  | None => None
  end.

(** The sum of the second column over rows; [None] if a row has none. *)
Fixpoint sum_price_column (rows : list string) : option Z :=
  match rows with
  | [] => Some 0%Z
  | r :: rs =>
      match price_column r, sum_price_column rs with
      | Some v, Some s => Some (v + s)%Z
      | _, _ => None
      end
  end.

(** Lower-casing of the letters A to Z, an instance of [toLowerCase] on
    ASCII text. *)
Definition ascii_lower (c : ascii) : ascii :=
  let n := nat_of_ascii c in
  if ((65 <=? n) && (n <=? 90))%nat then ascii_of_nat (n + 32) else c.

Fixpoint ascii_toLowerCase (s : string) : string :=
  match s with
  | EmptyString => EmptyString
  | String c s' => String (ascii_lower c) (ascii_toLowerCase s')
  end.

(** ** Sample data *)

Definition sample_uuids (n : nat) : string :=
  match n with
  | 0 => "u-0" | 1 => "u-1" | 2 => "u-2" | 3 => "u-3" | _ => "u-n"
  end.

Definition sample_clock (n : nat) : string :=
  match n with
  | 0 => "2025-01-01T10:00:00.000Z"
  | 1 => "2025-01-01T10:00:00.120Z"
  | 2 => "2025-01-01T10:00:00.250Z"
  | 3 => "2025-01-01T10:00:00.251Z"
  | _ => "2025-01-01T10:00:01.000Z"
  end.

(** Two open items, A of 70 cents and B of 140 cents. *)
Definition sample_A : Item :=
  mkItem "a" Fris "2024-12-31T20:00:00.000Z" 70 (Some "Koen") None None.
Definition sample_B : Item :=
  mkItem "b" Bier "2024-12-31T21:00:00.000Z" 140 (Some "") None None.

Definition sample_world : World :=
  mkWorld (Some [sample_B; sample_A]) (Some default_settings) (Some [])
    sample_uuids 0 sample_clock 0.

(** The sample world after settling A alone, and the batch this made. *)
Definition sample_settled : World :=
  exec (createPayment [sample_A] (items_of sample_world)) sample_world.

Definition sample_batch : PaymentBatch :=
  mkPaymentBatch "u-0" "2025-01-01T10:00:00.000Z" None.

(** An item that refers to a batch which the batch collection lacks. *)
Definition ghost_batch : PaymentBatch :=
  mkPaymentBatch "gone" "2025-01-01T10:00:00.000Z" None.

Definition dangling_world : World :=
  mkWorld
    (Some [with_paid sample_A (Some "2025-01-01T10:00:00.120Z") (Some "gone")])
    None (Some []) sample_uuids 0 sample_clock 0.

(** ** OverviewScreen: the sort, the selection and the totals *)

Section Sorting.

(** [new Date(s).getTime()] for the text of a valid date, left abstract. *)
Variable getTime : string -> Z.

(** The comparator of the sort (line 151): [b] minus [a]. *)
Definition by_date_desc (a b : Item) : Z :=
  (getTime (date b) - getTime (date a))%Z.

(** [Array.prototype.sort] is stable; with a consistent comparator its
    result is the insertion of the elements, from the last to the first,
    each before the first element it must not come after. *)
Fixpoint insert_sorted (it : Item) (l : list Item) : list Item :=
  match l with
  | [] => [it]
  | x :: rest =>
      if (by_date_desc it x <=? 0)%Z
      then it :: x :: rest
      else x :: insert_sorted it rest
  end.

(** [sorted] (lines 150-153): [[...items].sort(...)]. *)
Definition sorted (items : list Item) : list Item :=
  fold_right insert_sorted [] items.

End Sorting.

(** The state [selected], a [Record<string, boolean>], as the list of its
    bindings, the latest first. *)
Definition Selected : Type := list (string * bool).

(** [selected[k]], as the condition it is used for: a missing key is
    [undefined], which is falsy. *)
Fixpoint is_selected (selected : Selected) (k : string) : bool :=
  match selected with
  | [] => false
  | (k', b) :: rest => if (k' =? k)%string then b else is_selected rest k
  end.

(** [toggleSelect] (line 160): [{ ...s, [id]: !s[id] }]. *)
Definition toggleSelect (i : string) (s : Selected) : Selected :=
  (i, negb (is_selected s i)) :: s.

(** [selectedItems] (line 161). *)
Definition selectedItems (selected : Selected) (filtered_items : list Item)
    : list Item :=
  filter (fun it => is_selected selected (uuid it)) filtered_items.

(** [totalCents] (line 162), and the total shown above the list
    (line 171): the same [reduce]. *)
Definition totalCents (l : list Item) : Z :=
  fold_left (fun a b => (a + priceCents b)%Z) l 0%Z.


(** The items that are selected in the overview of a world, for the state
    of the switch, the search text and the selection. *)
Definition Overview_selection (toLowerCase : string -> string)
    (getTime : string -> Z) (w : World) (onlyUnpaid : bool)
    (search : string) (selected : Selected) : list Item :=
  selectedItems selected
    (filtered toLowerCase (sorted getTime (items_of w)) onlyUnpaid search).

(** ** PaymentsScreen, over a visit *)

(** The state of a visit of the payments tab: the items loaded when the
    screen mounted, which the screen never updates, and its payments. *)
Record PaymentsVisit : Type := mkVisit {
  visit_items : list Item;
  visit_payments : list PaymentBatch
}.

Definition PaymentsScreen_mount (w : World) : PaymentsVisit :=
  mkVisit (items_of w) (payments_of w).

(** [remove] (lines 236-240) at any moment of a visit: it maps over the
    items of the screen, stores the result with [saveJSON] without
    [setItems], and updates the payments of the screen, which their hook
    stores. *)
Definition PaymentsScreen_remove (p : PaymentBatch) (v : PaymentsVisit)
    : M PaymentsVisit :=
  let its := map (fun it => if strict_eq (paymentId it) (id p)
                            then with_paid it None None
                            else it) (visit_items v) in
  saveJSON K_ITEMS its ;;;
  let ps := filter (fun x => negb (id x =? id p)%string) (visit_payments v) in
  setPayments ps ;;;
  ret (mkVisit (visit_items v) ps).

(** ** Descriptions in the words of the specification *)

(** The item's payment batch is the batch [p]. *)
Definition refers_to (p : PaymentBatch) (it : Item) : bool :=
  match paymentId it with
  | Some b => if string_dec b (id p) then true else false
  | None => false
  end.

(** The items whose payment batch is [p]. *)
Definition batch_items (items : list Item) (p : PaymentBatch) : list Item :=
  filter (refers_to p) items.

(** [Number.MAX_SAFE_INTEGER], 2^53 - 1. *)
Definition MAX_SAFE_INTEGER : Z := 9007199254740991.

(** Amounts that a [number] adds without rounding and prints in plain
    decimal: no price is negative and the sum is a safe integer. *)
Definition exact_amounts (l : list Item) : Prop :=
  Forall (fun it => (0 <= priceCents it)%Z) l
  /\ (fold_right (fun b s => (priceCents b + s)%Z) 0%Z l
      <= MAX_SAFE_INTEGER)%Z.

(** ** Storage, at the level of the stored text *)

Module Raw.

(** [AsyncStorage]: the text under each key, if any. *)
Definition Store : Type := string -> option string.

Definition getItem (key : string) (st : Store) : option string := st key.

Definition setItem (key value : string) (st : Store) : Store :=
  fun k => if (k =? key)%string then Some value else st k.

Definition K_ITEMS : string := "ct.items.v1".
Definition K_SETTINGS : string := "ct.settings.v1".
Definition K_PAYMENTS : string := "ct.payments.v1".

Section Codec.

Variable T : Type.
(** [JSON.stringify] and [JSON.parse] at the type [T]; [parse] answers
    [None] where [JSON.parse] throws. *)
Variable stringify : T -> string.
Variable parse : string -> option T.

(** [loadJSON] (lines 33-37). *)
Definition loadJSON (key : string) (fallback : T) (st : Store) : T :=
  let raw := getItem key st in
  if negb (truthy raw) then fallback
  else match raw with
       | Some r => match parse r with
                   | Some v => v
                   | None => fallback
                   end
       | None => fallback
       end.

(** [saveJSON] (line 38). *)
Definition saveJSON (key : string) (value : T) (st : Store) : Store :=
  setItem key (stringify value) st.

End Codec.

End Raw.

(** ** More descriptions used in the statements *)

(** An oracle that never answers the same text twice. *)
Definition injective_src (f : nat -> string) : Prop :=
  forall a b, f a = f b -> a = b.

(** The sum of the prices of a list of items. *)
Definition sum_prices (l : list Item) : Z :=
  fold_right (fun b s => (priceCents b + s)%Z) 0%Z l.


(** The number of occurrences of a character in a text. *)
Fixpoint count_char (sep : ascii) (s : string) : nat :=
  match s with
  | EmptyString => 0
  | String c s' => (if Ascii.eqb c sep then 1 else 0) + count_char sep s'
  end.

(** Uuids of items and ids of batches are without repetition and were all
    drawn from the oracle. *)
Definition ids_fresh (w : World) : Prop :=
  NoDup (map uuid (items_of w))
  /\ NoDup (map id (payments_of w))
  /\ forall s,
       In s (map uuid (items_of w) ++ map id (payments_of w)) ->
       exists k, k < uuid_next w /\ s = uuid_src w k.

(** An oracle of uuids that is injective: the decimal numerals. *)
Definition decimal_uuids (n : nat) : string := String_of_number (Z.of_nat n).

(** Reading times back from the sample clock. *)
Definition sample_getTime (s : string) : Z :=
  if (s =? "2025-01-01T10:00:00.000Z")%string then 1000
  else if (s =? "2025-01-01T10:00:00.120Z")%string then 1120
  else if (s =? "2025-01-01T10:00:00.250Z")%string then 1250
  else if (s =? "2025-01-01T10:00:00.251Z")%string then 1251
  else if (s =? "2025-01-01T10:00:01.000Z")%string then 2000
  else 0.

(** A sample run: two purchases, then both are selected and settled. *)
Definition sample_acts : list Action :=
  [Add Fris "Koen"; Add Bier "An"].

Definition sample_run : World :=
  run sample_acts (fresh_install decimal_uuids sample_clock).

(** The same, followed by the settling of the first purchase. *)
Definition sample_first : Item :=
  mkItem "0" Fris "2025-01-01T10:00:00.000Z" 70 (Some "Koen") None None.

Definition sample_acts_settled : list Action :=
  sample_acts ++ [Settle [sample_first]].

(** A world with two batches, one item each. *)
Definition batch_1 : PaymentBatch :=
  mkPaymentBatch "b-1" "2025-01-02T09:00:00.000Z" None.
Definition batch_2 : PaymentBatch :=
  mkPaymentBatch "b-2" "2025-01-03T09:00:00.000Z" None.

Definition two_batches_world : World :=
  mkWorld
    (Some [with_paid sample_B (Some "2025-01-03T09:00:00.010Z") (Some "b-2");
           with_paid sample_A (Some "2025-01-02T09:00:00.010Z") (Some "b-1")])
    (Some default_settings) (Some [batch_2; batch_1])
    sample_uuids 0 sample_clock 0.

(** The sample world after A was settled a second time: its first batch
    is left without items. *)
Definition sample_resettled : World :=
  exec (createPayment [sample_A] (items_of sample_settled)) sample_settled.

(** A codec for amounts: decimal numerals, as [JSON.stringify] and
    [JSON.parse] treat an integer. *)
Definition stringify_number (n : Z) : string := String_of_number n.

Definition parse_number (s : string) : option Z :=
  option_map Z.of_int (NilZero.int_of_string s).

(** ** Tactics *)

(** Closes [nat_of_ascii sep < nat_of_ascii c] for a literal [c], from a
    bound on [sep] in the context. *)
Ltac above :=
  match goal with
  | |- (_ < nat_of_ascii ?c)%nat =>
      let v := eval vm_compute in (nat_of_ascii c) in
      change (nat_of_ascii c) with v; lia
  end.

(** * Properties *)

(** ** How each operation transforms the world *)

Lemma mapM_mark (sel : list Item) (i : string) (items : list Item) :
  forall w,
    mapM (fun it =>
            if found sel it
            then t <- nowISO ;; ret (with_paid it (Some t) (Some i))
            else ret it) items w
    = (mark_from sel i (clock_src w) (clock_next w) items,
       tick (count_found sel items) w).
Proof.
  unfold count_found.
  induction items as [|it rest IH]; intros [si ss sp us un cs cn].
  - unfold tick; simpl. now rewrite Nat.add_0_r.
  - cbn [mapM mark_from filter].
    unfold bind at 1. destruct (found sel it).
    + unfold bind at 1, nowISO at 1, ret at 1. cbn.
      unfold bind at 1. rewrite IH. unfold ret, tick; cbn.
      now rewrite Nat.add_succ_r.
    + unfold ret at 1. unfold bind at 1. rewrite IH. reflexivity.
Qed.

Lemma createPayment_run (sel ctx_items : list Item) (w : World) :
  createPayment sel ctx_items w
  = (tt,
     mkWorld
       (Some (mark_from sel (uuid_src w (uuid_next w)) (clock_src w)
                (S (clock_next w)) ctx_items))
       (slot_settings w)
       (Some (mkPaymentBatch (uuid_src w (uuid_next w))
                (clock_src w (clock_next w)) None :: payments_of w))
       (uuid_src w) (S (uuid_next w)) (clock_src w)
       (S (clock_next w) + count_found sel ctx_items)).
Proof.
  destruct w as [si ss sp us un cs cn].
  unfold createPayment, bind at 1, randomUUID; cbn.
  unfold bind at 1. rewrite mapM_mark. reflexivity.
Qed.

Lemma items_of_createPayment (sel ctx_items : list Item) (w : World) :
  items_of (exec (createPayment sel ctx_items) w)
  = mark_from sel (uuid_src w (uuid_next w)) (clock_src w)
      (S (clock_next w)) ctx_items.
Proof. unfold exec. now rewrite createPayment_run. Qed.

Lemma payments_of_createPayment (sel ctx_items : list Item) (w : World) :
  payments_of (exec (createPayment sel ctx_items) w)
  = mkPaymentBatch (uuid_src w (uuid_next w)) (clock_src w (clock_next w))
      None :: payments_of w.
Proof. unfold exec. now rewrite createPayment_run. Qed.

Lemma items_of_add (ty : ItemType) (label : string) (w : World) :
  items_of (exec (add ty label) w)
  = mkItem (uuid_src w (uuid_next w)) ty (clock_src w (clock_next w))
      (AddScreen_priceCents ty (settings_of w)) (Some label) None None
    :: items_of w.
Proof. destruct w; reflexivity. Qed.

Lemma payments_of_add (ty : ItemType) (label : string) (w : World) :
  payments_of (exec (add ty label) w) = payments_of w.
Proof. destruct w; reflexivity. Qed.

Lemma items_of_remove (p : PaymentBatch) (w : World) :
  items_of (exec (remove p) w) = map (clear_batch (id p)) (items_of w).
Proof. destruct w; reflexivity. Qed.

Lemma payments_of_remove (p : PaymentBatch) (w : World) :
  payments_of (exec (remove p) w)
  = filter (fun x => negb (id x =? id p)) (payments_of w).
Proof. destruct w; reflexivity. Qed.

Lemma items_of_save (cents : option Z) (code : string) (w : World) :
  items_of (exec (save cents code) w) = items_of w.
Proof.
  destruct w, cents as [c|]; [|reflexivity].
  unfold save. now destruct (c <=? 0)%Z.
Qed.

Lemma payments_of_save (cents : option Z) (code : string) (w : World) :
  payments_of (exec (save cents code) w) = payments_of w.
Proof.
  destruct w, cents as [c|]; [|reflexivity].
  unfold save. now destruct (c <=? 0)%Z.
Qed.

Lemma Afrekenen_press_nonempty (s : Item) (sel : list Item) (w : World) :
  Afrekenen_press (s :: sel) w = createPayment (s :: sel) (items_of w) w.
Proof. destruct w; reflexivity. Qed.

Lemma found_spec (sel : list Item) (it : Item) :
  found sel it = true <-> In (uuid it) (map uuid sel).
Proof.
  unfold found. induction sel as [|s sel IH]; cbn.
  - split; [discriminate | tauto].
  - destruct (String.eqb_spec (uuid s) (uuid it)) as [E|N].
    + split; auto.
    + rewrite IH. split; [auto | intros [E|H]; [contradiction | exact H]].
Qed.

Lemma nth_error_mark_from (sel : list Item) (i : string)
    (clock : nat -> string) (items : list Item) :
  forall n k,
    nth_error (mark_from sel i clock n items) k
    = option_map
        (fun it =>
           if found sel it
           then with_paid it
                  (Some (clock (n + count_found sel (firstn k items))))
                  (Some i)
           else it)
        (nth_error items k).
Proof.
  unfold count_found.
  induction items as [|it rest IH]; intros n [|k]; cbn; try reflexivity.
  - destruct (found sel it); cbn; [now rewrite Nat.add_0_r | reflexivity].
  - destruct (found sel it); cbn; rewrite IH; [|reflexivity].
    now rewrite Nat.add_succ_r.
Qed.

Lemma length_mark_from (sel : list Item) (i : string)
    (clock : nat -> string) (items : list Item) :
  forall n, List.length (mark_from sel i clock n items) = List.length items.
Proof.
  induction items as [|it rest IH]; intros n; cbn; [reflexivity|].
  destruct (found sel it); cbn; now rewrite IH.
Qed.

Lemma priceCents_mark_from (sel : list Item) (i : string)
    (clock : nat -> string) (items : list Item) :
  forall n,
    map priceCents (mark_from sel i clock n items) = map priceCents items.
Proof.
  induction items as [|it rest IH]; intros n; cbn; [reflexivity|].
  destruct (found sel it); cbn; now rewrite IH.
Qed.

Lemma consistent_mark_from (sel : list Item) (i : string)
    (clock : nat -> string) (items : list Item) :
  Forall paid_consistent items ->
  forall n, Forall paid_consistent (mark_from sel i clock n items).
Proof.
  induction 1 as [|it rest Hit _ IH]; intros n; cbn; [constructor|].
  destruct (found sel it); constructor; auto.
  exact I.
Qed.

Lemma In_mark_from (sel : list Item) (i : string) (clock : nat -> string)
    (items : list Item) (it' : Item) :
  forall n,
    In it' (mark_from sel i clock n items) ->
    In it' items
    \/ exists it k, it' = with_paid it (Some (clock k)) (Some i).
Proof.
  induction items as [|it rest IH]; intros n; cbn; [tauto|].
  destruct (found sel it); cbn; intros [<-|H].
  - right. now exists it, n.
  - destruct (IH _ H); auto.
  - auto.
  - destruct (IH _ H); auto.
Qed.

Lemma consistent_clear_batch (b : string) (it : Item) :
  paid_consistent it -> paid_consistent (clear_batch b it).
Proof.
  unfold clear_batch. destruct (strict_eq (paymentId it) b); [|trivial].
  intros _. exact I.
Qed.

(** Every action keeps the two payment fields of every item in step. *)
Lemma step_consistent (a : Action) (w : World) :
  Forall paid_consistent (items_of w) ->
  Forall paid_consistent (items_of (exec (step a) w)).
Proof.
  intros H. destruct a as [ty label|sel|p|cents code]; cbn [step].
  - rewrite items_of_add. constructor; [exact I | exact H].
  - destruct sel as [|s sel]; [destruct w; exact H|].
    unfold exec. rewrite Afrekenen_press_nonempty.
    fold (exec (createPayment (s :: sel) (items_of w)) w).
    rewrite items_of_createPayment. now apply consistent_mark_from.
  - rewrite items_of_remove. apply Forall_forall.
    intros it Hin. apply in_map_iff in Hin as [it0 [<- Hin]].
    apply consistent_clear_batch.
    revert it0 Hin. now apply Forall_forall.
  - now rewrite items_of_save.
Qed.

Lemma run_consistent (acts : list Action) :
  forall w,
    Forall paid_consistent (items_of w) ->
    Forall paid_consistent (items_of (run acts w)).
Proof.
  induction acts as [|a acts IH]; intros w H; [exact H|].
  cbn. apply IH. now apply step_consistent.
Qed.

(** ** C1: the price of a new item *)

(** C1. The price computed at item creation is [basePriceCents] for Fris
    and Snoep and twice [basePriceCents] for Bier, whatever the settings;
    [add] puts an item with that price at the head of the collection; with
    a base price of 70 a new Bier costs 140 and a new Fris costs 70. *)
Theorem price_at_creation :
  (forall s : Settings,
      AddScreen_priceCents Fris s = basePriceCents s
      /\ AddScreen_priceCents Snoep s = basePriceCents s
      /\ AddScreen_priceCents Bier s = (2 * basePriceCents s)%Z)
  /\ (forall (w : World) (ty : ItemType) (label : string),
         exists it,
           items_of (exec (add ty label) w) = it :: items_of w
           /\ type it = ty
           /\ priceCents it = AddScreen_priceCents ty (settings_of w))
  /\ (forall (w : World) (label : string),
         map priceCents
           (items_of (exec (add Bier label)
                        (setItem K_SETTINGS (mkSettings 70 "EUR") w)))
         = 140%Z :: map priceCents (items_of w)
         /\ map priceCents
              (items_of (exec (add Fris label)
                           (setItem K_SETTINGS (mkSettings 70 "EUR") w)))
            = 70%Z :: map priceCents (items_of w)).
Proof.
  split; [|split].
  - intros s. unfold AddScreen_priceCents; cbn [ItemType_eqb].
    repeat split; lia.
  - intros w ty label. eexists. rewrite items_of_add. repeat split.
  - intros w label. rewrite !items_of_add. destruct w; split; reflexivity.
Qed.

(** ** C2: what settling changes *)

(** C2, as stated, fails: the selected item does not receive the time
    stamp of the batch.  [createPayment] reads the clock once for the batch
    and once more for each selected item. *)
Lemma settle_paidAt_is_not_batch_time :
  exists (b : PaymentBatch) (it : Item),
    hd_error (payments_of sample_settled) = Some b
    /\ In it (items_of sample_settled)
    /\ found [sample_A] it = true
    /\ paymentId it = Some (id b)
    /\ paidAt it <> Some (createdAt b).
Proof.
  exists sample_batch.
  exists (with_paid sample_A (Some "2025-01-01T10:00:00.120Z") (Some "u-0")).
  repeat split; try reflexivity.
  - right; left; reflexivity.
  - discriminate.
Qed.

(** C2, amended.  [createPayment] prepends one new batch, whose id is the
    fresh uuid and whose [createdAt] is the clock reading taken then, and
    returns the collection with, position by position, an item whose uuid
    is in the selection replaced by itself with [paymentId] the id of the
    new batch and [paidAt] a clock reading of its own (the k-th selected
    item gets the k-th reading after the one of the batch), every other
    field as it was, and every other item as it was. *)
Theorem settle_effect (sel ctx_items : list Item) (w : World) :
  let batch :=
    mkPaymentBatch (uuid_src w (uuid_next w)) (clock_src w (clock_next w))
      None in
  let w' := exec (createPayment sel ctx_items) w in
  payments_of w' = batch :: payments_of w
  /\ forall n : nat,
       nth_error (items_of w') n
       = option_map
           (fun it =>
              if found sel it
              then mkItem (uuid it) (type it) (date it) (priceCents it)
                     (userLabel it)
                     (Some (clock_src w
                              (clock_next w + 1
                               + count_found sel (firstn n ctx_items))))
                     (Some (id batch))
              else it)
           (nth_error ctx_items n).
Proof.
  cbn zeta. split.
  - apply payments_of_createPayment.
  - intros n. rewrite items_of_createPayment, nth_error_mark_from.
    destruct (nth_error ctx_items n) as [it|]; [|reflexivity].
    cbn. destruct (found sel it); [|reflexivity].
    unfold with_paid. repeat f_equal. lia.
Qed.

(** ** C3: the two payment fields go together *)

(** C3. In every state reached from a fresh install by any sequence of
    actions (adding an item, settling a selection, reversing a batch,
    saving settings), every item has [paidAt] and [paymentId] both set or
    both absent. *)
Theorem paid_fields_atomic (uuids clock : nat -> string)
    (acts : list Action) :
  Forall paid_consistent (items_of (run acts (fresh_install uuids clock))).
Proof. apply run_consistent. constructor. Qed.

(** ** C4: settling and reversing *)

Lemma clear_marked (b : string) (t : string) (it : Item) :
  paidAt it = None -> paymentId it = None ->
  clear_batch b (with_paid it (Some t) (Some b)) = it.
Proof.
  intros Hp Hb. unfold clear_batch; cbn. rewrite String.eqb_refl.
  destruct it; cbn in *; now subst.
Qed.

Lemma filter_drops_id (b : string) (l : list PaymentBatch) (x : PaymentBatch) :
  In x (filter (fun y => negb (id y =? b)) l) -> id x <> b.
Proof.
  intros H. apply filter_In in H as [_ H].
  apply negb_true_iff in H. now apply String.eqb_neq.
Qed.

(** C4. Take a collection in which the items of the selection are unpaid
    (neither field set).  Settling the selection and then reversing the
    batch this created leaves every selected item exactly as it was before,
    so with [paidAt] and [paymentId] absent, and leaves no batch with the
    id of that batch in the batch collection. *)
Theorem settle_then_reverse (sel : list Item) (w : World)
    (Hunpaid : forall it,
        In it (items_of w) -> found sel it = true ->
        paidAt it = None /\ paymentId it = None) :
  let batch :=
    mkPaymentBatch (uuid_src w (uuid_next w)) (clock_src w (clock_next w))
      None in
  let w1 := exec (createPayment sel (items_of w)) w in
  let w2 := exec (remove batch) w1 in
  hd_error (payments_of w1) = Some batch
  /\ (forall n it,
         nth_error (items_of w) n = Some it -> found sel it = true ->
         nth_error (items_of w2) n = Some it
         /\ paidAt it = None /\ paymentId it = None)
  /\ List.length (items_of w2) = List.length (items_of w)
  /\ (forall x, In x (payments_of w2) -> id x <> id batch)
  /\ ~ In batch (payments_of w2).
Proof.
  cbn zeta.
  set (batch := mkPaymentBatch _ _ _).
  split; [|split; [|split; [|split]]].
  - now rewrite payments_of_createPayment.
  - intros n it Hn Hsel.
    destruct (Hunpaid it (nth_error_In _ _ Hn) Hsel) as [Hp Hb].
    split; [|now split].
    rewrite items_of_remove, items_of_createPayment.
    rewrite nth_error_map, nth_error_mark_from, Hn. cbn. rewrite Hsel.
    now rewrite clear_marked.
  - rewrite items_of_remove, items_of_createPayment.
    now rewrite length_map, length_mark_from.
  - intros x Hx. rewrite payments_of_remove in Hx.
    now apply filter_drops_id in Hx.
  - intros Hin. rewrite payments_of_remove in Hin.
    now apply filter_drops_id in Hin.
Qed.

Lemma settle_then_reverse_witness :
  (forall it,
      In it (items_of sample_world) -> found [sample_A] it = true ->
      paidAt it = None /\ paymentId it = None)
  /\ nth_error
       (items_of
          (exec (remove sample_batch) sample_settled)) 1
     = Some sample_A.
Proof.
  assert (H : forall it,
             In it (items_of sample_world) -> found [sample_A] it = true ->
             paidAt it = None /\ paymentId it = None).
  { intros it [<-|[<-|[]]] _; split; reflexivity. }
  split; [exact H|].
  apply (settle_then_reverse [sample_A] sample_world H); reflexivity.
Defined.

(** ** C5: prices are locked *)

Lemma priceCents_clear_batch (b : string) (items : list Item) :
  map priceCents (map (clear_batch b) items) = map priceCents items.
Proof.
  rewrite map_map. apply map_ext. intros it. unfold clear_batch.
  now destruct (strict_eq (paymentId it) b).
Qed.

(** An action keeps the prices of the items there were, in place; at most
    it puts the price of a new item in front. *)
Lemma step_prices (a : Action) (w : World) :
  exists newer,
    map priceCents (items_of (exec (step a) w))
    = newer ++ map priceCents (items_of w).
Proof.
  destruct a as [ty label|sel|p|cents code]; cbn [step].
  - eexists [_]. now rewrite items_of_add.
  - exists []. destruct sel as [|s sel]; [now destruct w|].
    unfold exec. rewrite Afrekenen_press_nonempty.
    fold (exec (createPayment (s :: sel) (items_of w)) w).
    now rewrite items_of_createPayment, priceCents_mark_from.
  - exists []. now rewrite items_of_remove, priceCents_clear_batch.
  - exists []. now rewrite items_of_save.
Qed.

Lemma run_prices (acts : list Action) :
  forall w,
    exists newer,
      map priceCents (items_of (run acts w))
      = newer ++ map priceCents (items_of w).
Proof.
  induction acts as [|a acts IH]; intros w; [now exists []|].
  change (run (a :: acts) w) with (run acts (exec (step a) w)).
  destruct (IH (exec (step a) w)) as [n1 E1].
  destruct (step_prices a w) as [n2 E2].
  exists (n1 ++ n2). now rewrite E1, E2, app_assoc.
Qed.

(** C5. Saving settings leaves the item collection, and so the
    [priceCents] of every existing item, as it was; and along any sequence
    of actions, whatever settings are saved in between, the prices of the
    items that existed stay what they were (new items only come in
    front). *)
Theorem prices_locked :
  (forall (w : World) (cents : option Z) (code : string),
      items_of (exec (save cents code) w) = items_of w)
  /\ (forall (acts : list Action) (w : World),
         exists newer,
           map priceCents (items_of (run acts w))
           = newer ++ map priceCents (items_of w)).
Proof.
  split.
  - intros w cents code. apply items_of_save.
  - intros acts w. apply run_prices.
Qed.

(** ** C6: the filter of the overview *)

Lemma prefix_spec (t : string) :
  forall s, String.prefix t s = true <-> exists post, s = (t ++ post)%string.
Proof.
  induction t as [|a t IH]; intros s.
  - destruct s; cbn; (split; [intros _; eexists; reflexivity | reflexivity]).
  - destruct s as [|b s]; cbn.
    + split; [discriminate | intros [post H]; discriminate].
    + destruct (ascii_dec a b) as [->|N].
      * rewrite IH. split; intros [post H]; exists post.
        -- now rewrite H.
        -- now injection H.
      * split; [discriminate|].
        intros [post H]. injection H as E _. now symmetry in E.
Qed.

Lemma includes_spec (s t : string) :
  includes s t = true <-> substring_of t s.
Proof.
  unfold substring_of. induction s as [|c s IH]; cbn [includes].
  - rewrite orb_false_r, prefix_spec. split.
    + intros [post H]. now exists EmptyString, post.
    + intros [[|a pre] [post H]]; [now exists post | discriminate].
  - rewrite orb_true_iff, prefix_spec, IH. split.
    + intros [[post H]|[pre [post H]]].
      * now exists EmptyString, post.
      * exists (String c pre), post. cbn. now rewrite H.
    + intros [[|a pre] [post H]].
      * left. now exists post.
      * right. cbn in H. injection H as _ H. now exists pre, post.
Qed.

Lemma or_else_empty (o : option string) : or_else o "" = nullish o "".
Proof.
  destruct o as [s|]; [|reflexivity].
  unfold or_else; cbn. now destruct (String.eqb_spec s "").
Qed.

Lemma falsy_spec (o : option string) :
  truthy o = false <-> o = None \/ o = Some "".
Proof.
  destruct o as [s|]; cbn.
  - rewrite negb_false_iff, String.eqb_eq. split.
    + intros ->. now right.
    + intros [H|H]; [discriminate | now injection H].
  - split; [now left | reflexivity].
Qed.

(** Membership in [filtered], with the test on [paidAt] as the code
    makes it: by truthiness, under which the empty text counts as
    absent. *)
Lemma filtered_In (toLowerCase : string -> string)
    (sorted : list Item) (onlyUnpaid : bool) (search : string) (it : Item) :
  In it (filtered toLowerCase sorted onlyUnpaid search)
  <-> In it sorted
      /\ (onlyUnpaid = true -> paidAt it = None \/ paidAt it = Some "")
      /\ (search = ""
          \/ substring_of (toLowerCase search)
               (toLowerCase (nullish (userLabel it) ""))
          \/ substring_of (toLowerCase search)
               (toLowerCase (ItemType_str (type it)))).
Proof.
  unfold filtered, matches_search.
  rewrite filter_In, andb_true_iff, !orb_true_iff, !includes_spec.
  rewrite String.eqb_eq, or_else_empty, !negb_true_iff, falsy_spec.
  split; intros [Hin [Hp Hs]]; (split; [exact Hin | split]).
  - intros E. destruct Hp as [Hp|Hp]; [congruence | exact Hp].
  - tauto.
  - destruct onlyUnpaid; [right; now apply Hp | now left].
  - tauto.
Qed.

(** C6. For every list of items whose [paidAt], where set, is a time
    stamp (never the empty text, which is all the app ever writes:
    [nowISO()] or nothing), [filtered] keeps exactly the items that pass
    both tests: with [onlyUnpaid] on, [paidAt] is absent, so no item with
    [paidAt] set is returned; and the search text is empty, or is up to
    case a part of the label, or is up to case a part of the name of the
    type. *)
Theorem filter_unpaid_and_search (toLowerCase : string -> string)
    (sorted : list Item) (onlyUnpaid : bool) (search : string) (it : Item) :
  (forall x, In x sorted -> paidAt x <> Some "") ->
  (In it (filtered toLowerCase sorted onlyUnpaid search)
   <-> In it sorted
       /\ (onlyUnpaid = true -> paidAt it = None)
       /\ (search = ""
           \/ substring_of (toLowerCase search)
                (toLowerCase (nullish (userLabel it) ""))
           \/ substring_of (toLowerCase search)
                (toLowerCase (ItemType_str (type it))))).
Proof.
  intros Hts. rewrite filtered_In. split; intros [Hin [Hp Hs]];
    (split; [exact Hin | split; [|exact Hs]]); intros E.
  - destruct (Hp E) as [H|H]; [exact H | now apply Hts in H].
  - left. now apply Hp.
Qed.

Lemma filter_unpaid_and_search_witness :
  (forall x,
      In x [sample_B; sample_A;
            with_paid sample_A (Some "2025-01-01T10:00:00.120Z") (Some "u-0")]
      -> paidAt x <> Some "")
  /\ (In sample_A
        (filtered ascii_toLowerCase
           [sample_B; sample_A;
            with_paid sample_A (Some "2025-01-01T10:00:00.120Z")
              (Some "u-0")]
           true "koen")
      <-> In sample_A
            [sample_B; sample_A;
             with_paid sample_A (Some "2025-01-01T10:00:00.120Z")
               (Some "u-0")]
          /\ (true = true -> paidAt sample_A = None)
          /\ ("koen" = ""
              \/ substring_of (ascii_toLowerCase "koen")
                   (ascii_toLowerCase (nullish (userLabel sample_A) ""))
              \/ substring_of (ascii_toLowerCase "koen")
                   (ascii_toLowerCase (ItemType_str (type sample_A))))).
Proof.
  assert (H : forall x,
             In x [sample_B; sample_A;
                   with_paid sample_A (Some "2025-01-01T10:00:00.120Z")
                     (Some "u-0")]
             -> paidAt x <> Some "").
  { intros x [<-|[<-|[<-|[]]]]; discriminate. }
  split; [exact H|].
  exact (@filter_unpaid_and_search ascii_toLowerCase _ true "koen"
           sample_A H).
Defined.

(** The search of the specification's scenario: only unpaid items, text
    "koen". *)
Example filtered_koen :
  filtered ascii_toLowerCase [sample_B; sample_A;
                              with_paid sample_A (Some "2025-01-01T10:00:00.120Z")
                                (Some "u-0")]
    true "koen"
  = [sample_A].
Proof. reflexivity. Qed.

Lemma clock_src_step (a : Action) (w : World) :
  clock_src (exec (step a) w) = clock_src w.
Proof.
  destruct a as [ty label|sel|p|cents code]; cbn [step].
  - now destruct w.
  - destruct sel as [|s sel]; [now destruct w|].
    unfold exec. rewrite Afrekenen_press_nonempty.
    now rewrite createPayment_run.
  - now destruct w.
  - destruct w, cents as [c|]; [|reflexivity].
    unfold save. now destruct (c <=? 0)%Z.
Qed.

Lemma step_nonblank (a : Action) (w : World) :
  nonblank_times w -> nonblank_times (exec (step a) w).
Proof.
  intros [Hc Hi]. split; [now rewrite clock_src_step|].
  destruct a as [ty label|sel|p|cents code]; cbn [step].
  - intros it. rewrite items_of_add. intros [<-|Hin]; [discriminate | auto].
  - destruct sel as [|s sel]; [destruct w; exact Hi|].
    unfold exec. rewrite Afrekenen_press_nonempty.
    fold (exec (createPayment (s :: sel) (items_of w)) w).
    intros it. rewrite items_of_createPayment.
    intros Hin. apply In_mark_from in Hin as [Hin|[it0 [k ->]]]; [auto|].
    cbn. intros [= E]. now apply (Hc k).
  - intros it. rewrite items_of_remove.
    intros Hin. apply in_map_iff in Hin as [it0 [<- Hin]].
    unfold clear_batch.
    destruct (strict_eq (paymentId it0) (id p)); [discriminate | auto].
  - intros it. rewrite items_of_save. auto.
Qed.

Lemma run_nonblank (acts : list Action) :
  forall w, nonblank_times w -> nonblank_times (run acts w).
Proof.
  induction acts as [|a acts IH]; intros w H; [exact H|].
  change (run (a :: acts) w) with (run acts (exec (step a) w)).
  apply IH. now apply step_nonblank.
Qed.

(** The states of the app meet the condition: in a state reached from a
    fresh install, with a clock that never answers the empty text, no
    [paidAt] is the empty text, and the filter with [onlyUnpaid] on
    returns only items without [paidAt]. *)
Corollary filtered_unpaid_reachable (toLowerCase : string -> string)
    (uuids clock : nat -> string) (acts : list Action)
    (sorted : list Item) (search : string) (it : Item) :
  (forall n, clock n <> "") ->
  (forall x, In x sorted ->
             In x (items_of (run acts (fresh_install uuids clock)))) ->
  In it (filtered toLowerCase sorted true search) ->
  paidAt it = None.
Proof.
  intros Hc Hsub Hin. unfold filtered in Hin.
  apply filter_In in Hin as [Hin Hp]. apply andb_true_iff in Hp as [Hp _].
  cbn in Hp. apply negb_true_iff, falsy_spec in Hp as [Hp|Hp]; [exact Hp|].
  exfalso.
  assert (N : nonblank_times (run acts (fresh_install uuids clock))).
  { apply run_nonblank. split; [exact Hc | intros ? []]. }
  exact (proj2 N it (Hsub it Hin) Hp).
Qed.

(** ** C7: settling nothing *)

(** C7. Settling is offered by the button "Afrekenen" alone, which is
    disabled exactly when the selection is empty; this is how the empty
    selection is turned down and shown to the user.  Pressing it then does
    nothing: [createPayment] is not run, no batch is created, and the
    world, with the batch collection and the item collection, is as
    before. *)
Theorem empty_selection_is_rejected (w : World) :
  Afrekenen_disabled [] = true
  /\ (forall sel : list Item, Afrekenen_disabled sel = true <-> sel = [])
  /\ Afrekenen_press [] w = (tt, w)
  /\ payments_of (exec (Afrekenen_press []) w) = payments_of w
  /\ items_of (exec (Afrekenen_press []) w) = items_of w.
Proof.
  split; [reflexivity | split; [|repeat split]].
  intros [|s sel]; split; try reflexivity; discriminate.
Qed.

(** The check is the button's alone: [createPayment], which only the
    enabled button calls, makes none of its own. *)
Lemma createPayment_empty_adds_batch :
  payments_of (exec (createPayment [] (items_of sample_world)) sample_world)
  <> payments_of sample_world.
Proof. discriminate. Qed.

(** ** C8: the rows of the export *)

Lemma fold_left_push (A : Type) (f : A -> string) (l : list A) :
  forall acc,
    fold_left (fun rows x => rows ++ [f x]) l acc = acc ++ map f l.
Proof.
  induction l as [|x l IH]; intros acc; cbn.
  - now rewrite app_nil_r.
  - now rewrite IH, <- app_assoc.
Qed.

Lemma strict_eq_spec (o : option string) (s : string) :
  strict_eq o s = true <-> o = Some s.
Proof.
  destruct o as [x|]; cbn.
  - rewrite String.eqb_eq. split; [now intros -> | now intros [= ->]].
  - split; discriminate.
Qed.

Lemma shareCSV_rows_eq (items : list Item) (p : PaymentBatch) :
  shareCSV_rows items p
  = csv_header
    :: map (csv_row p)
         (filter (fun it => strict_eq (paymentId it) (id p)) items).
Proof. unfold shareCSV_rows. now rewrite fold_left_push. Qed.

(** C8, as stated, fails: the header row of the export is not the one the
    claim quotes. *)
Lemma csv_header_is_not_english :
  hd_error
    (shareCSV_rows (items_of sample_settled)
       sample_batch)
  <> Some "type,price_cents,date,user,paid_at,batch_id".
Proof. discriminate. Qed.

(** C8, amended.  The rows of the export are the header row
    [type,prijs_cents,datum,user,betaald_op,batch_id] followed by one row
    for each item whose [paymentId] is the id of the batch, in the order of
    the collection; a row is the type, the price in cents, the date, the
    label, [paidAt] and the id of the batch, in that order, separated by
    commas, an absent label or [paidAt] giving the empty text; the message
    is the rows separated by line feeds. *)
Theorem shareCSV_format (items : list Item) (p : PaymentBatch) :
  shareCSV_rows items p
  = "type,prijs_cents,datum,user,betaald_op,batch_id"
    :: map (fun it =>
              ItemType_str (type it) ++ "," ++
              String_of_number (priceCents it) ++ "," ++
              date it ++ "," ++
              match userLabel it with Some l => l | None => "" end ++ "," ++
              match paidAt it with Some t => t | None => "" end ++ "," ++
              id p)%string
         (filter (fun it => strict_eq (paymentId it) (id p)) items)
  /\ (forall it,
         In it (filter (fun it => strict_eq (paymentId it) (id p)) items)
         <-> In it items /\ paymentId it = Some (id p))
  /\ shareCSV items p
     = String.concat (String "010"%char "") (shareCSV_rows items p).
Proof.
  split; [|split].
  - now rewrite shareCSV_rows_eq.
  - intros it. now rewrite filter_In, strict_eq_spec.
  - reflexivity.
Qed.

(** ** C9: the export and the total agree *)

Lemma split_on_field (sep : ascii) (f : string) (rest : string) :
  free_of sep f = true ->
  split_on sep (f ++ String sep rest) = f :: split_on sep rest.
Proof.
  induction f as [|c f IH]; cbn; [now rewrite Ascii.eqb_refl|].
  intros H. apply andb_true_iff in H as [Hc Hf].
  apply negb_true_iff in Hc. rewrite Hc, (IH Hf). reflexivity.
Qed.

Lemma eqb_above (sep c : ascii) :
  (nat_of_ascii sep < nat_of_ascii c)%nat -> Ascii.eqb c sep = false.
Proof. intros H. apply Ascii.eqb_neq. intros ->. lia. Qed.

Lemma free_of_uint (sep : ascii) (d : Decimal.uint) :
  (nat_of_ascii sep < 48)%nat ->
  free_of sep (NilEmpty.string_of_uint d) = true.
Proof.
  intros H.
  induction d; cbn [NilEmpty.string_of_uint free_of]; [reflexivity|..];
    (rewrite eqb_above by above); exact IHd.
Qed.

Lemma free_of_number (sep : ascii) (n : Z) :
  (nat_of_ascii sep < 45)%nat -> free_of sep (String_of_number n) = true.
Proof.
  intros H. unfold String_of_number, NilZero.string_of_int.
  assert (U : forall d, free_of sep (NilZero.string_of_uint d) = true).
  { intros d. unfold NilZero.string_of_uint.
    destruct d; try (apply free_of_uint; lia).
    cbn [free_of]. now rewrite eqb_above by above. }
  destruct (Z.to_int n) as [d|d]; [apply U|].
  cbn [free_of]. rewrite U. now rewrite eqb_above by above.
Qed.

Lemma free_of_type (sep : ascii) (ty : ItemType) :
  (nat_of_ascii sep < 45)%nat -> free_of sep (ItemType_str ty) = true.
Proof.
  intros H.
  destruct ty; cbn [ItemType_str free_of];
    repeat (rewrite eqb_above by above); reflexivity.
Qed.

(** Reading back what [String(n)] printed gives [n]. *)
Lemma number_roundtrip (n : Z) :
  option_map Z.of_int (NilZero.int_of_string (String_of_number n)) = Some n.
Proof.
  unfold String_of_number. rewrite NilZero.isi.
  - cbn. now rewrite DecimalZ.of_to.
  - destruct n; cbn; try discriminate.
    intros [= H]. now apply DecimalPos.Unsigned.to_uint_nonnil in H.
  - destruct n; cbn; try discriminate.
    intros [= H]. now apply DecimalPos.Unsigned.to_uint_nonnil in H.
Qed.

Lemma price_column_row (ty : ItemType) (n : Z) (rest : string) :
  price_column
    (ItemType_str ty ++ "," ++ String_of_number n ++ "," ++ rest)%string
  = Some n.
Proof.
  unfold price_column.
  change ("," ++ String_of_number n ++ "," ++ rest)%string
    with (String comma (String_of_number n ++ String comma rest)).
  rewrite split_on_field by (apply free_of_type; cbn; lia).
  rewrite split_on_field by (apply free_of_number; cbn; lia).
  cbn [nth_error]. apply number_roundtrip.
Qed.

Lemma fold_left_sum (l : list Item) :
  forall acc,
    fold_left (fun a b => (a + priceCents b)%Z) l acc
    = (acc + fold_right (fun b s => (priceCents b + s)%Z) 0%Z l)%Z.
Proof.
  induction l as [|x l IH]; intros acc; cbn; [lia|].
  rewrite IH. lia.
Qed.

Lemma rows_sum_is_total (items : list Item) (p : PaymentBatch) :
  sum_price_column (tl (shareCSV_rows items p)) = Some (totalFor items p).
Proof.
  rewrite shareCSV_rows_eq.
  unfold totalFor. rewrite fold_left_sum. cbn [tl].
  induction (filter (fun it => strict_eq (paymentId it) (id p)) items)
    as [|it l IH]; [reflexivity|].
  cbn [map sum_price_column fold_right]. unfold csv_row at 1.
  now rewrite price_column_row, IH.
Qed.

Lemma split_on_free (sep : ascii) (f : string) :
  free_of sep f = true -> split_on sep f = [f].
Proof.
  induction f as [|c f IH]; cbn; [reflexivity|].
  intros H. apply andb_true_iff in H as [Hc Hf].
  apply negb_true_iff in Hc. now rewrite Hc, (IH Hf).
Qed.

Lemma split_on_concat (sep : ascii) (rows : list string) :
  rows <> [] ->
  Forall (fun r => free_of sep r = true) rows ->
  split_on sep (String.concat (String sep "") rows) = rows.
Proof.
  intros Hne H. induction H as [|x rows Hx Hrows IH]; [contradiction|].
  destruct rows as [|y rows].
  - cbn. now apply split_on_free.
  - change (String.concat (String sep "") (x :: y :: rows))
      with (x ++ String sep (String.concat (String sep "") (y :: rows)))%string.
    rewrite split_on_field by exact Hx. now rewrite IH.
Qed.

Lemma free_of_app (sep : ascii) (a b : string) :
  free_of sep (a ++ b) = free_of sep a && free_of sep b.
Proof.
  induction a as [|c a IH]; cbn; [reflexivity|].
  now rewrite IH, andb_assoc.
Qed.

(** The same on the text of the message, split at line feeds, when no
    text field of an exported item, nor the id of the batch, holds a line
    feed. *)
Corollary message_sum_is_total (items : list Item) (p : PaymentBatch) :
  (forall it,
      In it items -> paymentId it = Some (id p) ->
      free_of line_feed (date it) = true
      /\ free_of line_feed (nullish (userLabel it) "") = true
      /\ free_of line_feed (nullish (paidAt it) "") = true) ->
  free_of line_feed (id p) = true ->
  sum_price_column (tl (split_on line_feed (shareCSV items p)))
  = Some (totalFor items p).
Proof.
  intros Hit Hp. unfold shareCSV. fold line_feed.
  rewrite split_on_concat.
  - apply rows_sum_is_total.
  - rewrite shareCSV_rows_eq. discriminate.
  - rewrite shareCSV_rows_eq. constructor; [reflexivity|].
    apply Forall_forall. intros r Hr.
    apply in_map_iff in Hr as [it [<- Hin]].
    apply filter_In in Hin as [Hin Hid]. apply strict_eq_spec in Hid.
    destruct (Hit it Hin Hid) as [Hd [Hl Ht]].
    unfold csv_row. rewrite !free_of_app, Hd, Hl, Ht, Hp.
    rewrite free_of_type, free_of_number by (cbn; lia). reflexivity.
Qed.

Lemma strict_eq_refers (p : PaymentBatch) (it : Item) :
  strict_eq (paymentId it) (id p) = refers_to p it.
Proof.
  unfold refers_to. destruct (paymentId it) as [b|]; [|reflexivity].
  cbn. destruct (string_dec b (id p)) as [->|N].
  - apply String.eqb_refl.
  - now apply String.eqb_neq.
Qed.

Lemma filter_batch_items (items : list Item) (p : PaymentBatch) :
  filter (fun it => strict_eq (paymentId it) (id p)) items
  = batch_items items p.
Proof. apply filter_ext. intros it. apply strict_eq_refers. Qed.

(** While no price is negative, a running total never exceeds the
    total. *)
Lemma running_total_bounds (l : list Item) (k : nat) :
  Forall (fun it => (0 <= priceCents it)%Z) l ->
  (0 <= fold_right (fun b s => (priceCents b + s)%Z) 0%Z (firstn k l)
   <= fold_right (fun b s => (priceCents b + s)%Z) 0%Z l)%Z.
Proof.
  intros H. revert k. induction H as [|x l Hx Hl IH]; intros [|k]; cbn.
  - lia.
  - lia.
  - specialize (IH 0). cbn in IH. lia.
  - specialize (IH k). lia.
Qed.

(** C9. Take a batch whose items have amounts that a [number] holds
    exactly (no negative price, a total that is a safe integer, so that
    every running total of the sum is one and every price prints in plain
    decimal).  Then the second column of the data rows of the export
    reads back as the prices of the items whose [paymentId] is the id of
    the batch, row by row; [totalFor] is the sum of the prices of exactly
    those items; and so the column adds up to [totalFor]. *)
Theorem csv_column_adds_up_to_total (items : list Item) (p : PaymentBatch) :
  exact_amounts (batch_items items p) ->
  map price_column (tl (shareCSV_rows items p))
  = map (fun it => Some (priceCents it)) (batch_items items p)
  /\ totalFor items p
     = fold_right (fun b s => (priceCents b + s)%Z) 0%Z (batch_items items p)
  /\ sum_price_column (tl (shareCSV_rows items p)) = Some (totalFor items p)
  /\ forall k : nat,
       (0 <= fold_left (fun a b => (a + priceCents b)%Z)
               (firstn k (batch_items items p)) 0%Z
        <= MAX_SAFE_INTEGER)%Z.
Proof.
  intros [Hpos Hmax]. split; [|split; [|split]].
  - rewrite shareCSV_rows_eq, filter_batch_items. cbn [tl].
    rewrite map_map. apply map_ext. intros it. unfold csv_row.
    apply price_column_row.
  - unfold totalFor. rewrite fold_left_sum, filter_batch_items.
    apply Z.add_0_l.
  - apply rows_sum_is_total.
  - intros k. rewrite fold_left_sum, Z.add_0_l.
    pose proof (running_total_bounds k Hpos). lia.
Qed.

Lemma csv_column_adds_up_to_total_witness :
  exact_amounts (batch_items (items_of sample_settled) sample_batch)
  /\ map price_column
       (tl (shareCSV_rows (items_of sample_settled) sample_batch))
     = [Some 70%Z]
  /\ totalFor (items_of sample_settled) sample_batch = 70%Z.
Proof.
  assert (H : exact_amounts
                (batch_items (items_of sample_settled) sample_batch)).
  { split; [repeat constructor; cbn; lia | cbn; unfold MAX_SAFE_INTEGER; lia]. }
  split; [exact H|].
  destruct (csv_column_adds_up_to_total (items_of sample_settled)
              sample_batch H) as [Hcol [Htot _]].
  split; [exact Hcol | exact Htot].
Defined.

(** Settling A (70 cents) and B (140 cents) together: one batch, both
    items refer to it, and its total is 210. *)
Example settle_A_B :
  payments_of
    (exec (createPayment [sample_A; sample_B] (items_of sample_world))
       sample_world)
  = [sample_batch]
  /\ map paymentId
       (items_of
          (exec (createPayment [sample_A; sample_B] (items_of sample_world))
             sample_world))
     = [Some (id sample_batch); Some (id sample_batch)]
  /\ totalFor
       (items_of
          (exec (createPayment [sample_A; sample_B] (items_of sample_world))
             sample_world))
       sample_batch
     = 210%Z
  /\ shareCSV (items_of sample_settled) sample_batch
     = String.concat (String line_feed "")
         ["type,prijs_cents,datum,user,betaald_op,batch_id";
          "Fris,70,2024-12-31T20:00:00.000Z,Koen,2025-01-01T10:00:00.120Z,u-0"].
Proof. repeat split. Qed.

(** ** C10: reversing a batch that is not there *)

Lemma remove_run (p : PaymentBatch) (w : World) :
  remove p w
  = (tt,
     mkWorld (Some (map (clear_batch (id p)) (items_of w)))
       (slot_settings w)
       (Some (filter (fun x => negb (id x =? id p)) (payments_of w)))
       (uuid_src w) (uuid_next w) (clock_src w) (clock_next w)).
Proof. destruct w; reflexivity. Qed.

Lemma clear_batch_idem (b : string) (it : Item) :
  clear_batch b (clear_batch b it) = clear_batch b it.
Proof.
  unfold clear_batch.
  destruct (strict_eq (paymentId it) b) eqn:E; [reflexivity|].
  now rewrite E.
Qed.

Lemma clear_batch_other (b : string) (it : Item) :
  paymentId it <> Some b -> clear_batch b it = it.
Proof.
  intros H. unfold clear_batch.
  destruct (strict_eq (paymentId it) b) eqn:E; [|reflexivity].
  now apply strict_eq_spec in E.
Qed.

Lemma filter_keeps_all (A : Type) (f : A -> bool) (l : list A) :
  (forall x, In x l -> f x = true) -> filter f l = l.
Proof.
  induction l as [|x l IH]; intros H; cbn; [reflexivity|].
  rewrite (H x (or_introl eq_refl)), IH; [reflexivity|].
  intros y Hy. apply H. now right.
Qed.

Lemma filter_idem (A : Type) (f : A -> bool) (l : list A) :
  filter f (filter f l) = filter f l.
Proof.
  apply filter_keeps_all. intros x Hx. now apply filter_In in Hx.
Qed.

(** C10, as stated, fails: the batch is absent from the batch collection,
    yet reversing it changes the item collection, because an item still
    refers to its id. *)
Lemma dangling_reference_cleared :
  (forall x, In x (payments_of dangling_world) -> id x <> id ghost_batch)
  /\ items_of (exec (remove ghost_batch) dangling_world)
     <> items_of dangling_world.
Proof. split; [intros x [] | discriminate]. Qed.

(** C10, amended.  Reversing a batch whose id is absent from the batch
    collection and to which no item refers returns both collections
    unchanged; and after one reverse of a batch, whatever the collections
    were, a second reverse of the same batch changes nothing. *)
Theorem reverse_absent (p : PaymentBatch) (w : World) :
  ((forall x, In x (payments_of w) -> id x <> id p) ->
   (forall it, In it (items_of w) -> paymentId it <> Some (id p)) ->
   items_of (exec (remove p) w) = items_of w
   /\ payments_of (exec (remove p) w) = payments_of w)
  /\ exec (remove p) (exec (remove p) w) = exec (remove p) w.
Proof.
  split.
  - intros Hb Hi. rewrite items_of_remove, payments_of_remove. split.
    + rewrite <- (map_id (items_of w)) at 2. apply map_ext_in.
      intros it Hin. apply clear_batch_other. now apply Hi.
    + apply filter_keeps_all. intros x Hx.
      apply negb_true_iff, String.eqb_neq. now apply Hb.
  - unfold exec. rewrite !remove_run. cbn [snd].
    unfold items_of, payments_of; cbn.
    rewrite map_map, filter_idem.
    now rewrite (map_ext _ _ (clear_batch_idem (id p))).
Qed.

Lemma reverse_absent_witness :
  (forall x, In x (payments_of sample_world) -> id x <> id ghost_batch)
  /\ (forall it,
         In it (items_of sample_world) -> paymentId it <> Some (id ghost_batch))
  /\ items_of (exec (remove ghost_batch) sample_world) = items_of sample_world
  /\ payments_of (exec (remove ghost_batch) sample_world)
     = payments_of sample_world.
Proof.
  assert (Hb : forall x,
             In x (payments_of sample_world) -> id x <> id ghost_batch).
  { intros x []. }
  assert (Hi : forall it,
             In it (items_of sample_world) ->
             paymentId it <> Some (id ghost_batch)).
  { intros it [<-|[<-|[]]]; discriminate. }
  split; [exact Hb | split; [exact Hi|]].
  exact (proj1 (reverse_absent ghost_batch sample_world) Hb Hi).
Defined.

Lemma step_refs_exist (a : Action) (w : World) :
  refs_exist w -> refs_exist (exec (step a) w).
Proof.
  unfold refs_exist. intros H.
  destruct a as [ty label|sel|p|cents code]; cbn [step].
  - intros it b. rewrite items_of_add, payments_of_add.
    intros [<-|Hin] Hb; [discriminate | eauto].
  - destruct sel as [|s sel]; [destruct w; exact H|].
    unfold exec. rewrite Afrekenen_press_nonempty.
    fold (exec (createPayment (s :: sel) (items_of w)) w).
    intros it b.
    rewrite items_of_createPayment, payments_of_createPayment.
    intros Hin Hb. apply In_mark_from in Hin as [Hin|Hnew].
    + destruct (H it b Hin Hb) as [x [Hx E]]. exists x. split; [now right|auto].
    + destruct Hnew as [it0 [k ->]]. eexists. split; [now left|].
      cbn in *. congruence.
  - intros it b. rewrite items_of_remove, payments_of_remove.
    intros Hin Hb. apply in_map_iff in Hin as [it0 [<- Hin]].
    unfold clear_batch in Hb.
    destruct (strict_eq (paymentId it0) (id p)) eqn:E; [discriminate|].
    destruct (H it0 b Hin Hb) as [x [Hx Ex]]. exists x. split; [|exact Ex].
    apply filter_In. split; [exact Hx|].
    apply negb_true_iff, String.eqb_neq. intros Eid.
    rewrite Hb in E. cbn in E. apply String.eqb_neq in E. congruence.
  - intros it b. rewrite items_of_save, payments_of_save. apply H.
Qed.

Lemma run_refs_exist (acts : list Action) :
  forall w, refs_exist w -> refs_exist (run acts w).
Proof.
  induction acts as [|a acts IH]; intros w H; [exact H|].
  change (run (a :: acts) w) with (run acts (exec (step a) w)).
  apply IH. now apply step_refs_exist.
Qed.

(** In a state reached from a fresh install by a run, each action on a
    freshly mounted screen, every item that refers to a batch finds it in
    the batch collection, so there reversing a batch that is absent
    changes nothing.  (Several removes in one visit of the payments tab
    do leave items that refer to a removed batch.) *)
Corollary reachable_absent_reverse_noop (uuids clock : nat -> string)
    (acts : list Action) (p : PaymentBatch) :
  let w := run acts (fresh_install uuids clock) in
  (forall x, In x (payments_of w) -> id x <> id p) ->
  items_of (exec (remove p) w) = items_of w
  /\ payments_of (exec (remove p) w) = payments_of w.
Proof.
  intros w Hb.
  assert (Hi : forall it, In it (items_of w) -> paymentId it <> Some (id p)).
  { intros it Hin Hp.
    assert (R : refs_exist w) by (apply run_refs_exist; intros ? ? []).
    destruct (R it (id p) Hin Hp) as [x [Hx E]]. now apply (Hb x). }
  rewrite items_of_remove, payments_of_remove. split.
  - rewrite <- (map_id (items_of w)) at 2. apply map_ext_in.
    intros it Hin. apply clear_batch_other. now apply Hi.
  - apply filter_keeps_all. intros x Hx.
    apply negb_true_iff, String.eqb_neq. now apply Hb.
Qed.

(** * Further properties *)

(** ** What the oracles go through *)

Lemma uuid_src_step (a : Action) (w : World) :
  uuid_src (exec (step a) w) = uuid_src w.
Proof.
  destruct a as [ty label|sel|p|cents code]; cbn [step].
  - now destruct w.
  - destruct sel as [|s sel]; [now destruct w|].
    unfold exec. rewrite Afrekenen_press_nonempty.
    now rewrite createPayment_run.
  - now destruct w.
  - destruct w, cents as [c|]; [|reflexivity].
    unfold save. now destruct (c <=? 0)%Z.
Qed.

Lemma uuid_next_step (a : Action) (w : World) :
  uuid_next (exec (step a) w)
  = match a with
    | Add _ _ | Settle (_ :: _) => S (uuid_next w)
    | _ => uuid_next w
    end.
Proof.
  destruct a as [ty label|sel|p|cents code]; cbn [step].
  - now destruct w.
  - destruct sel as [|s sel]; [now destruct w|].
    unfold exec. rewrite Afrekenen_press_nonempty.
    now rewrite createPayment_run.
  - now destruct w.
  - destruct w, cents as [c|]; [|reflexivity].
    unfold save. now destruct (c <=? 0)%Z.
Qed.

Lemma items_of_press (s : Item) (sel : list Item) (w : World) :
  items_of (exec (Afrekenen_press (s :: sel)) w)
  = mark_from (s :: sel) (uuid_src w (uuid_next w)) (clock_src w)
      (S (clock_next w)) (items_of w).
Proof.
  unfold exec. rewrite Afrekenen_press_nonempty.
  fold (exec (createPayment (s :: sel) (items_of w)) w).
  apply items_of_createPayment.
Qed.

Lemma payments_of_press (s : Item) (sel : list Item) (w : World) :
  payments_of (exec (Afrekenen_press (s :: sel)) w)
  = mkPaymentBatch (uuid_src w (uuid_next w)) (clock_src w (clock_next w))
      None :: payments_of w.
Proof.
  unfold exec. rewrite Afrekenen_press_nonempty.
  fold (exec (createPayment (s :: sel) (items_of w)) w).
  apply payments_of_createPayment.
Qed.

Lemma press_nothing (w : World) : exec (Afrekenen_press []) w = w.
Proof. reflexivity. Qed.

(** ** Uuids are keys *)

Lemma uuid_mark_from (sel : list Item) (i : string) (clock : nat -> string)
    (items : list Item) :
  forall n, map uuid (mark_from sel i clock n items) = map uuid items.
Proof.
  induction items as [|it rest IH]; intros n; cbn; [reflexivity|].
  destruct (found sel it); cbn; now rewrite IH.
Qed.

Lemma uuid_clear_batch (b : string) (items : list Item) :
  map uuid (map (clear_batch b) items) = map uuid items.
Proof.
  rewrite map_map. apply map_ext. intros it. unfold clear_batch.
  now destruct (strict_eq (paymentId it) b).
Qed.

Lemma NoDup_map_filter (A B : Type) (g : A -> B) (f : A -> bool)
    (l : list A) :
  NoDup (map g l) -> NoDup (map g (filter f l)).
Proof.
  induction l as [|x l IH]; cbn; [auto|].
  intros H. inversion H as [|y t Hx Hl]; subst.
  destruct (f x); cbn; [|auto].
  constructor; [|auto].
  intros Hin. apply Hx. apply in_map_iff in Hin as [z [E Hz]].
  apply filter_In in Hz as [Hz _]. rewrite <- E. now apply in_map.
Qed.

Lemma NoDup_map_inj (A B : Type) (g : A -> B) (l : list A) (x y : A) :
  NoDup (map g l) -> In x l -> In y l -> g x = g y -> x = y.
Proof.
  induction l as [|z l IH]; cbn; [tauto|].
  intros H. inversion H as [|u t Hz Hl]; subst.
  intros [->|Hx] [->|Hy] E; auto.
  - exfalso. apply Hz. rewrite E. now apply in_map.
  - exfalso. apply Hz. rewrite <- E. now apply in_map.
Qed.


(** A text drawn next is none of the texts drawn so far. *)
Lemma next_is_new (f : nat -> string) (n : nat) (l : list string) :
  injective_src f ->
  (forall s, In s l -> exists k, k < n /\ s = f k) ->
  ~ In (f n) l.
Proof.
  intros Hinj Hl Hin. destruct (Hl _ Hin) as [k [Hk E]].
  apply Hinj in E. lia.
Qed.

Lemma step_ids_fresh (a : Action) (w : World) :
  injective_src (uuid_src w) ->
  ids_fresh w -> ids_fresh (exec (step a) w).
Proof.
  intros Hinj [Hi [Hp Hd]]. unfold ids_fresh.
  rewrite uuid_src_step, uuid_next_step.
  destruct a as [ty label|sel|p|cents code]; cbn [step].
  - rewrite items_of_add, payments_of_add. cbn [map uuid].
    split; [|split; [exact Hp|]].
    + constructor; [|exact Hi].
      apply next_is_new with (n := uuid_next w); [exact Hinj|].
      intros s Hs. apply Hd, in_or_app. now left.
    + intros s [<-|Hs]; [now exists (uuid_next w); split; [lia|]|].
      destruct (Hd s Hs) as [k [Hk E]]. exists k. split; [lia | exact E].
  - destruct sel as [|s0 sel]; [rewrite press_nothing; now repeat split|].
    rewrite items_of_press, payments_of_press, uuid_mark_from.
    cbn [map id].
    split; [exact Hi | split].
    + constructor; [|exact Hp].
      apply next_is_new with (n := uuid_next w); [exact Hinj|].
      intros s Hs. apply Hd, in_or_app. now right.
    + intros s Hs. apply in_app_or in Hs as [Hs|[<-|Hs]].
      * destruct (Hd s (in_or_app _ _ _ (or_introl Hs))) as [k [Hk E]].
        exists k. split; [lia | exact E].
      * exists (uuid_next w). split; [lia | reflexivity].
      * destruct (Hd s (in_or_app _ _ _ (or_intror Hs))) as [k [Hk E]].
        exists k. split; [lia | exact E].
  - rewrite items_of_remove, payments_of_remove, uuid_clear_batch.
    split; [exact Hi | split; [now apply NoDup_map_filter|]].
    intros s Hs. apply Hd. apply in_app_or in Hs as [Hs|Hs];
      apply in_or_app; [now left | right].
    apply in_map_iff in Hs as [x [<- Hx]].
    apply filter_In in Hx as [Hx _]. now apply in_map.
  - rewrite items_of_save, payments_of_save. now repeat split.
Qed.

Lemma run_ids_fresh (acts : list Action) :
  forall w,
    injective_src (uuid_src w) -> ids_fresh w -> ids_fresh (run acts w).
Proof.
  induction acts as [|a acts IH]; intros w Hinj H; [exact H|].
  change (run (a :: acts) w) with (run acts (exec (step a) w)).
  apply IH; [now rewrite uuid_src_step | now apply step_ids_fresh].
Qed.

Lemma fresh_ids_fresh (uuids clock : nat -> string) :
  ids_fresh (fresh_install uuids clock).
Proof. repeat split; try constructor. intros s []. Qed.

Lemma uuid_src_run (acts : list Action) :
  forall w, uuid_src (run acts w) = uuid_src w.
Proof.
  induction acts as [|a acts IH]; intros w; [reflexivity|].
  change (run (a :: acts) w) with (run acts (exec (step a) w)).
  now rewrite IH, uuid_src_step.
Qed.

Lemma decimal_uuids_injective : injective_src decimal_uuids.
Proof.
  intros a b E. unfold decimal_uuids in E.
  assert (H : Some (Z.of_nat a) = Some (Z.of_nat b)).
  { rewrite <- !number_roundtrip. now rewrite E. }
  injection H as H. lia.
Qed.

(** X3. When [Crypto.randomUUID] never answers the same text twice, in
    every state reached from a fresh install no two items have the same
    uuid and no two batches the same id: the keys that the lists of the
    screens and the selection rely on are keys. *)
Theorem uuids_are_keys (uuids clock : nat -> string) (acts : list Action) :
  injective_src uuids ->
  NoDup (map uuid (items_of (run acts (fresh_install uuids clock))))
  /\ NoDup (map id (payments_of (run acts (fresh_install uuids clock)))).
Proof.
  intros Hinj.
  destruct (run_ids_fresh acts (w := fresh_install uuids clock) Hinj
              (fresh_ids_fresh uuids clock)) as [Hi [Hp _]].
  now split.
Qed.

Lemma uuids_are_keys_witness :
  injective_src decimal_uuids
  /\ NoDup
       (map uuid
          (items_of
             (run sample_acts_settled
                (fresh_install decimal_uuids sample_clock))))
  /\ NoDup
       (map id
          (payments_of
             (run sample_acts_settled
                (fresh_install decimal_uuids sample_clock)))).
Proof.
  split; [exact decimal_uuids_injective|].
  exact (uuids_are_keys sample_clock sample_acts_settled
           decimal_uuids_injective).
Defined.

(** ** The overview: sort, selection, totals *)

Lemma insert_sorted_perm (getTime : string -> Z) (it : Item)
    (l : list Item) :
  Permutation (insert_sorted getTime it l) (it :: l).
Proof.
  induction l as [|x rest IH]; cbn; [reflexivity|].
  destruct (by_date_desc getTime it x <=? 0)%Z; [reflexivity|].
  rewrite IH. apply perm_swap.
Qed.

Lemma sorted_perm (getTime : string -> Z) (items : list Item) :
  Permutation (sorted getTime items) items.
Proof.
  induction items as [|it rest IH]; cbn; [reflexivity|].
  rewrite insert_sorted_perm. now constructor.
Qed.

Lemma insert_sorted_desc (getTime : string -> Z) (it : Item)
    (l : list Item) :
  StronglySorted
    (fun a b => (getTime (date b) <= getTime (date a))%Z) l ->
  StronglySorted
    (fun a b => (getTime (date b) <= getTime (date a))%Z)
    (insert_sorted getTime it l).
Proof.
  induction 1 as [|x rest Hs IH Hx]; cbn.
  - constructor; constructor.
  - unfold by_date_desc at 1.
    destruct (Z.leb_spec (getTime (date x) - getTime (date it)) 0) as [L|G].
    + constructor; [now constructor|].
      constructor; [lia|].
      eapply Forall_impl; [|exact Hx]. cbn. intros y Hy. lia.
    + constructor; [exact IH|].
      eapply Permutation_Forall.
      * symmetry. apply insert_sorted_perm.
      * constructor; [lia | exact Hx].
Qed.

Lemma filter_insert_sorted (getTime : string -> Z) (t : Z) (it : Item)
    (l : list Item) :
  filter (fun x => (getTime (date x) =? t)%Z) (insert_sorted getTime it l)
  = filter (fun x => (getTime (date x) =? t)%Z) (it :: l).
Proof.
  induction l as [|x rest IH]; [reflexivity|].
  cbn [insert_sorted]. unfold by_date_desc at 1.
  destruct (Z.leb_spec (getTime (date x) - getTime (date it)) 0) as [L|G];
    [reflexivity|].
  cbn [filter] in *. rewrite IH.
  destruct (Z.eqb_spec (getTime (date x)) t),
           (Z.eqb_spec (getTime (date it)) t); try reflexivity.
  lia.
Qed.

(** X4. The list shown in the overview is a rearrangement of the stored
    items (nothing lost, nothing doubled), newest first, and items of the
    same time keep the order they have in the collection. *)
Theorem sorted_newest_first (getTime : string -> Z) (items : list Item) :
  Permutation (sorted getTime items) items
  /\ StronglySorted
       (fun a b => (getTime (date b) <= getTime (date a))%Z)
       (sorted getTime items)
  /\ forall t : Z,
       filter (fun x => (getTime (date x) =? t)%Z) (sorted getTime items)
       = filter (fun x => (getTime (date x) =? t)%Z) items.
Proof.
  split; [apply sorted_perm | split].
  - induction items as [|it rest IH]; cbn; [constructor|].
    now apply insert_sorted_desc.
  - intros t. induction items as [|it rest IH]; [reflexivity|].
    cbn [sorted fold_right]. rewrite filter_insert_sorted.
    cbn [filter]. fold (sorted getTime rest). now rewrite IH.
Qed.

Lemma is_selected_toggle (i k : string) (s : Selected) :
  is_selected (toggleSelect i s) k
  = if (i =? k)%string then negb (is_selected s i) else is_selected s k.
Proof. reflexivity. Qed.

(** X5. Tapping a row flips the selection of exactly the rows with that
    uuid and leaves the other rows as they were; tapping it twice gives
    the selection back; and with the initial, empty selection nothing is
    selected, so the button "Afrekenen" is disabled. *)
Theorem toggleSelect_flips (i : string) (s : Selected) (l : list Item) :
  (forall it,
      In it (selectedItems (toggleSelect i s) l)
      <-> In it l
          /\ (if (uuid it =? i)%string
              then is_selected s i = false
              else is_selected s (uuid it) = true))
  /\ selectedItems (toggleSelect i (toggleSelect i s)) l = selectedItems s l
  /\ selectedItems [] l = []
  /\ Afrekenen_disabled (selectedItems [] l) = true.
Proof.
  split; [|split; [|split]].
  - intros it. unfold selectedItems.
    rewrite filter_In, is_selected_toggle, (String.eqb_sym (uuid it) i).
    destruct (String.eqb_spec i (uuid it)) as [E|N].
    + now rewrite negb_true_iff.
    + reflexivity.
  - unfold selectedItems. apply filter_ext. intros it.
    rewrite !is_selected_toggle, String.eqb_refl.
    destruct (String.eqb_spec i (uuid it)) as [->|N];
      [apply negb_involutive | reflexivity].
  - unfold selectedItems. induction l as [|x l IH]; cbn; auto.
  - unfold selectedItems.
    replace (filter (fun it => is_selected [] (uuid it)) l) with (@nil Item);
      [reflexivity|].
    induction l as [|x l IH]; cbn; auto.
Qed.

Lemma totalCents_sum (l : list Item) : totalCents l = sum_prices l.
Proof. unfold totalCents. now rewrite fold_left_sum. Qed.

Lemma sum_prices_positive (l : list Item) :
  (forall it, In it l -> (0 < priceCents it)%Z) ->
  l <> [] -> (0 < sum_prices l)%Z.
Proof.
  induction l as [|x l IH]; intros H Hne; [contradiction|].
  change (sum_prices (x :: l)) with (priceCents x + sum_prices l)%Z.
  assert (Hx := H x (or_introl eq_refl)).
  destruct l as [|y l].
  - change (sum_prices []) with 0%Z. lia.
  - assert (0 < sum_prices (y :: l))%Z; [|lia].
    apply IH; [|discriminate]. intros it Hit. apply H. now right.
Qed.

Lemma selection_incl (toLowerCase : string -> string)
    (getTime : string -> Z) (w : World) (onlyUnpaid : bool)
    (search : string) (selected : Selected) (it : Item) :
  In it (Overview_selection toLowerCase getTime w onlyUnpaid search selected)
  -> In it (items_of w).
Proof.
  unfold Overview_selection, selectedItems, filtered. intros H.
  apply filter_In in H as [H _]. apply filter_In in H as [H _].
  now apply (Permutation_in _ (sorted_perm getTime (items_of w))).
Qed.

(** X6. When every selected item has a positive price, the button
    "Afrekenen" is disabled exactly when the amount shown for the
    selection is zero: a selection that is not empty does not add up to
    nothing. *)
Theorem disabled_iff_nothing_to_pay (selected : list Item) :
  (forall it, In it selected -> (0 < priceCents it)%Z) ->
  Afrekenen_disabled selected = (totalCents selected =? 0)%Z.
Proof.
  intros Hpos. rewrite totalCents_sum.
  destruct selected as [|x sel]; [reflexivity|].
  assert (0 < sum_prices (x :: sel))%Z
    by (apply sum_prices_positive; [exact Hpos | discriminate]).
  cbn [Afrekenen_disabled List.length Nat.eqb]. symmetry.
  apply Z.eqb_neq. lia.
Qed.

Lemma disabled_iff_nothing_to_pay_witness :
  (forall it, In it [sample_A; sample_B] -> (0 < priceCents it)%Z)
  /\ Afrekenen_disabled [sample_A; sample_B]
     = (totalCents [sample_A; sample_B] =? 0)%Z.
Proof.
  assert (H : forall it,
             In it [sample_A; sample_B] -> (0 < priceCents it)%Z).
  { intros it [<-|[<-|[]]]; cbn; lia. }
  split; [exact H|].
  exact (disabled_iff_nothing_to_pay [sample_A; sample_B] H).
Defined.

(** ** Totals of batches *)

Lemma totalFor_sum (items : list Item) (p : PaymentBatch) :
  totalFor items p
  = sum_prices (filter (fun it => strict_eq (paymentId it) (id p)) items).
Proof. unfold totalFor. rewrite fold_left_sum. apply Z.add_0_l. Qed.

Lemma totalFor_cons (it : Item) (items : list Item) (p : PaymentBatch) :
  totalFor (it :: items) p
  = ((if strict_eq (paymentId it) (id p) then priceCents it else 0)
     + totalFor items p)%Z.
Proof.
  rewrite !totalFor_sum. cbn [filter].
  destruct (strict_eq (paymentId it) (id p)); reflexivity.
Qed.

Lemma totalFor_nil (p : PaymentBatch) : totalFor [] p = 0%Z.
Proof. reflexivity. Qed.


Lemma found_with_paid (sel : list Item) (it : Item)
    (t b : option string) :
  found sel (with_paid it t b) = found sel it.
Proof. reflexivity. Qed.

Lemma In_mark_from_cases (sel : list Item) (i : string)
    (clock : nat -> string) (items : list Item) (it' : Item) :
  forall n,
    In it' (mark_from sel i clock n items) ->
    (In it' items /\ found sel it' = false)
    \/ exists it k,
         In it items /\ found sel it = true
         /\ it' = with_paid it (Some (clock k)) (Some i).
Proof.
  induction items as [|it rest IH]; intros n; cbn; [tauto|].
  destruct (found sel it) eqn:F; cbn; intros [<-|H].
  - right. exists it, n. auto.
  - destruct (IH _ H) as [[H1 H2]|[it0 [k [H1 H2]]]]; [auto|].
    right. exists it0, k. tauto.
  - auto.
  - destruct (IH _ H) as [[H1 H2]|[it0 [k [H1 H2]]]]; [auto|].
    right. exists it0, k. tauto.
Qed.


(** The total of any other batch counts the items that were not found. *)
Lemma totalFor_mark_other (sel : list Item) (i : string)
    (clock : nat -> string) (items : list Item) (q : PaymentBatch) :
  id q <> i ->
  forall n,
    totalFor (mark_from sel i clock n items) q
    = totalFor (filter (fun it => negb (found sel it)) items) q.
Proof.
  intros Hq. induction items as [|it rest IH]; intros n; [reflexivity|].
  cbn [mark_from filter]. destruct (found sel it); cbn [negb].
  - rewrite totalFor_cons, IH. cbn [paymentId with_paid strict_eq].
    apply String.eqb_neq in Hq. rewrite String.eqb_sym in Hq.
    now rewrite Hq.
  - now rewrite !totalFor_cons, IH.
Qed.

Lemma totalFor_clear (b : string) (items : list Item) (q : PaymentBatch) :
  totalFor (map (clear_batch b) items) q
  = if (id q =? b)%string then 0%Z else totalFor items q.
Proof.
  induction items as [|it rest IH].
  - now destruct (id q =? b)%string.
  - cbn [map]. rewrite !totalFor_cons, IH. unfold clear_batch.
    destruct (strict_eq (paymentId it) b) eqn:E.
    + apply strict_eq_spec in E. rewrite E.
      cbn [paymentId with_paid strict_eq].
      rewrite (String.eqb_sym b (id q)).
      now destruct (id q =? b)%string.
    + destruct (String.eqb_spec (id q) b) as [->|N]; [|reflexivity].
      now rewrite E.
Qed.

Lemma PaymentsScreen_remove_run (p : PaymentBatch) (v : PaymentsVisit)
    (w : World) :
  PaymentsScreen_remove p v w
  = (mkVisit (visit_items v)
       (filter (fun x => negb (id x =? id p)) (visit_payments v)),
     mkWorld (Some (map (clear_batch (id p)) (visit_items v)))
       (slot_settings w)
       (Some (filter (fun x => negb (id x =? id p)) (visit_payments v)))
       (uuid_src w) (uuid_next w) (clock_src w) (clock_next w)).
Proof. destruct w; reflexivity. Qed.

(** On a screen that has just mounted, the handler of the visit is
    [remove]. *)
Lemma remove_at_mount (p : PaymentBatch) (w : World) :
  exec (PaymentsScreen_remove p (PaymentsScreen_mount w)) w
  = exec (remove p) w.
Proof.
  unfold exec. now rewrite PaymentsScreen_remove_run, remove_run.
Qed.

(** X7. At any moment of a visit of the payments tab, [remove] of a batch
    stores an item collection in which the total of that batch is zero
    and the total of every other batch is the one the screen showed;
    the screen itself keeps the items it loaded, so the totals it shows
    do not move. *)
Theorem remove_stores_totals (p q : PaymentBatch) (v : PaymentsVisit)
    (w : World) :
  totalFor (items_of (exec (PaymentsScreen_remove p v) w)) q
  = (if (id q =? id p)%string then 0%Z else totalFor (visit_items v) q)
  /\ totalFor (visit_items (eval (PaymentsScreen_remove p v) w)) q
     = totalFor (visit_items v) q.
Proof.
  unfold exec, eval. rewrite PaymentsScreen_remove_run. cbn [fst snd].
  split; [|reflexivity].
  unfold items_of, eval, useItems, loadJSON. cbn.
  apply totalFor_clear.
Qed.

(** X8. [createPayment] does not check that the selected items are open:
    an item it settles leaves the batch it was in.  The total of every
    batch other than the new one becomes the total of its items that were
    not selected. *)
Theorem settle_moves_items (sel ctx_items : list Item) (w : World)
    (q : PaymentBatch) :
  id q <> uuid_src w (uuid_next w) ->
  totalFor (items_of (exec (createPayment sel ctx_items) w)) q
  = totalFor (filter (fun it => negb (found sel it)) ctx_items) q.
Proof.
  intros Hq. rewrite items_of_createPayment.
  now apply totalFor_mark_other.
Qed.

Lemma settle_moves_items_witness :
  id sample_batch <> uuid_src sample_settled (uuid_next sample_settled)
  /\ totalFor
       (items_of
          (exec (createPayment [sample_A] (items_of sample_settled))
             sample_settled))
       sample_batch
     = 0%Z.
Proof.
  assert (H : id sample_batch
              <> uuid_src sample_settled (uuid_next sample_settled))
    by discriminate.
  split; [exact H|].
  exact (settle_moves_items [sample_A] (items_of sample_settled)
           sample_settled sample_batch H).
Defined.

(** ** The overview and the ledger together *)

(** What holds in a state reached from a fresh install. *)
Lemma reached_facts (uuids clock : nat -> string) (acts : list Action) :
  injective_src uuids ->
  let w := run acts (fresh_install uuids clock) in
  injective_src (uuid_src w) /\ ids_fresh w /\ refs_exist w
  /\ Forall paid_consistent (items_of w).
Proof.
  intros Hinj w. unfold w. rewrite uuid_src_run.
  split; [exact Hinj | split; [|split]].
  - apply run_ids_fresh; [exact Hinj | apply fresh_ids_fresh].
  - apply run_refs_exist. intros ? ? [].
  - apply run_consistent. constructor.
Qed.

(** The id drawn next is the id of no batch and no item refers to it. *)
Lemma next_id_unused (w : World) :
  injective_src (uuid_src w) -> ids_fresh w -> refs_exist w ->
  (forall x, In x (payments_of w) -> id x <> uuid_src w (uuid_next w))
  /\ (forall it,
         In it (items_of w) ->
         paymentId it <> Some (uuid_src w (uuid_next w))).
Proof.
  intros Hinj [_ [_ Hd]] Hr.
  assert (Hp : forall x,
             In x (payments_of w) -> id x <> uuid_src w (uuid_next w)).
  { intros x Hx E.
    apply (@next_is_new (uuid_src w) (uuid_next w)
             (map id (payments_of w)) Hinj).
    - intros s Hs. apply Hd, in_or_app. now right.
    - rewrite <- E. now apply in_map. }
  split; [exact Hp|].
  intros it Hin E. destruct (Hr it _ Hin E) as [x [Hx Ex]].
  now apply (Hp x Hx).
Qed.

(** With uuids as keys, the items that [createPayment] finds for a
    selection taken from the collection are the selected items. *)
Lemma found_is_selected (sel items : list Item) :
  NoDup (map uuid items) -> incl sel items ->
  forall it, In it items -> found sel it = true -> In it sel.
Proof.
  intros Hnd Hincl it Hin Hf.
  apply found_spec, in_map_iff in Hf as [y [E Hy]].
  rewrite (NoDup_map_inj uuid items it y Hnd Hin (Hincl y Hy)); auto.
Qed.





Lemma clear_mark_from (sel : list Item) (i : string) (clock : nat -> string)
    (items : list Item) :
  (forall it, In it items -> found sel it = true ->
              paidAt it = None /\ paymentId it = None) ->
  (forall it, In it items -> paymentId it <> Some i) ->
  forall n, map (clear_batch i) (mark_from sel i clock n items) = items.
Proof.
  induction items as [|it rest IH]; intros Hu Hf n; [reflexivity|].
  assert (E : map (clear_batch i) (mark_from sel i clock
                (if found sel it then S n else n) rest) = rest).
  { apply IH; intros x Hx; [apply Hu | apply Hf]; now right. }
  cbn [mark_from]. destruct (found sel it) eqn:F; cbn [map]; rewrite E.
  - destruct (Hu it (or_introl eq_refl) F) as [Hp Hb].
    now rewrite clear_marked.
  - now rewrite clear_batch_other by (apply Hf; now left).
Qed.

(** The items selected in the list of open items are open: neither
    payment field is set. *)
Lemma open_selection_unpaid (toLowerCase : string -> string)
    (getTime : string -> Z) (w : World) (search : string)
    (selected : Selected) (it : Item) :
  nonblank_times w -> Forall paid_consistent (items_of w) ->
  In it (Overview_selection toLowerCase getTime w true search selected) ->
  paidAt it = None /\ paymentId it = None.
Proof.
  intros [_ Hnb] Hc Hin.
  assert (Hit := selection_incl _ _ _ _ _ _ _ Hin).
  unfold Overview_selection, selectedItems, filtered in Hin.
  apply filter_In in Hin as [Hin _]. apply filter_In in Hin as [_ Hp].
  apply andb_true_iff in Hp as [Hp _]. cbn in Hp.
  apply negb_true_iff, falsy_spec in Hp as [Hp|Hp];
    [|now apply Hnb in Hp].
  split; [exact Hp|].
  assert (C : paid_consistent it)
    by (apply (proj1 (Forall_forall _ _) Hc); exact Hit).
  unfold paid_consistent in C. rewrite Hp in C.
  now destruct (paymentId it).
Qed.

(** X10. When uuids never repeat and the clock never answers the empty
    text, in every state reached from a fresh install: settling a
    selection made in the list of open items and then reversing the batch
    this created gives back the whole item collection and the whole batch
    collection, exactly as they were. *)
Theorem settle_reverse_restores_all (toLowerCase : string -> string)
    (getTime : string -> Z) (uuids clock : nat -> string)
    (acts : list Action) (search : string) (selected : Selected) :
  injective_src uuids ->
  (forall n, clock n <> "") ->
  let w := run acts (fresh_install uuids clock) in
  let sel :=
    Overview_selection toLowerCase getTime w true search selected in
  let batch :=
    mkPaymentBatch (uuid_src w (uuid_next w)) (clock_src w (clock_next w))
      None in
  let w2 := exec (remove batch) (exec (createPayment sel (items_of w)) w) in
  items_of w2 = items_of w /\ payments_of w2 = payments_of w.
Proof.
  intros Hinj Hclock w sel batch w2.
  destruct (reached_facts clock acts Hinj) as [Hi [Hf [Hr Hc]]].
  fold w in Hi, Hf, Hr, Hc.
  assert (Hnb : nonblank_times w).
  { apply run_nonblank. split; [exact Hclock | intros ? []]. }
  destruct (next_id_unused Hi Hf Hr) as [Hpay Hitem].
  unfold w2. rewrite items_of_remove, payments_of_remove.
  rewrite items_of_createPayment, payments_of_createPayment.
  split.
  - apply clear_mark_from; [|exact Hitem].
    intros it Hin F.
    apply open_selection_unpaid
      with (toLowerCase := toLowerCase) (getTime := getTime) (w := w)
           (search := search) (selected := selected); auto.
    apply found_is_selected with (items := items_of w); auto.
    + apply Hf.
    + intros x. apply selection_incl.
  - cbn [filter id batch]. rewrite String.eqb_refl. cbn [negb].
    apply filter_keeps_all. intros x Hx.
    apply negb_true_iff, String.eqb_neq. now apply Hpay.
Qed.

Lemma sample_clock_nonblank : forall n, sample_clock n <> "".
Proof. intros [|[|[|[|n]]]]; discriminate. Qed.

Lemma settle_reverse_restores_all_witness :
  injective_src decimal_uuids
  /\ (forall n, sample_clock n <> "")
  /\ items_of
       (exec (remove (mkPaymentBatch "2" "2025-01-01T10:00:00.250Z" None))
          (exec (createPayment
                   (Overview_selection ascii_toLowerCase sample_getTime
                      sample_run true "an" [("1", true)])
                   (items_of sample_run))
             sample_run))
     = items_of sample_run
  /\ payments_of
       (exec (remove (mkPaymentBatch "2" "2025-01-01T10:00:00.250Z" None))
          (exec (createPayment
                   (Overview_selection ascii_toLowerCase sample_getTime
                      sample_run true "an" [("1", true)])
                   (items_of sample_run))
             sample_run))
     = payments_of sample_run.
Proof.
  split; [exact decimal_uuids_injective|].
  split; [exact sample_clock_nonblank|].
  exact (@settle_reverse_restores_all ascii_toLowerCase sample_getTime
           decimal_uuids sample_clock sample_acts "an" [("1", true)]
           decimal_uuids_injective sample_clock_nonblank).
Defined.

(** X11. After settling, with a clock that never answers the empty text,
    none of the settled items is in the list of open items any more,
    whatever the search text: an item cannot be settled a second time
    from that list. *)
Theorem settled_leave_open_list (toLowerCase : string -> string)
    (sel ctx_items : list Item) (w : World) (shown : list Item)
    (search : string) (it : Item) :
  (forall n, clock_src w n <> "") ->
  incl shown (items_of (exec (createPayment sel ctx_items) w)) ->
  In it (filtered toLowerCase shown true search) ->
  found sel it = false.
Proof.
  intros Hclock Hincl Hin. unfold filtered in Hin.
  apply filter_In in Hin as [Hin Hp].
  apply andb_true_iff in Hp as [Hp _]. cbn in Hp.
  apply negb_true_iff in Hp.
  apply Hincl in Hin. rewrite items_of_createPayment in Hin.
  apply In_mark_from_cases in Hin as [[_ F]|[it0 [k [_ [_ E]]]]];
    [exact F|].
  exfalso. rewrite E in Hp. cbn in Hp.
  apply negb_false_iff, String.eqb_eq in Hp. now apply (Hclock k).
Qed.

Lemma settled_leave_open_list_witness :
  (forall n, clock_src sample_world n <> "")
  /\ incl [sample_B] (items_of sample_settled)
  /\ In sample_B (filtered ascii_toLowerCase [sample_B] true "")
  /\ found [sample_A] sample_B = false.
Proof.
  assert (H1 : forall n, clock_src sample_world n <> "")
    by exact sample_clock_nonblank.
  assert (H2 : incl [sample_B]
                 (items_of (exec (createPayment [sample_A]
                                    (items_of sample_world)) sample_world))).
  { intros x [<-|[]]. left. reflexivity. }
  assert (H3 : In sample_B (filtered ascii_toLowerCase [sample_B] true ""))
    by (left; reflexivity).
  split; [exact H1 | split; [exact H2 | split; [exact H3|]]].
  exact (@settled_leave_open_list ascii_toLowerCase [sample_A]
           (items_of sample_world) sample_world [sample_B] "" sample_B
           H1 H2 H3).
Defined.

(** ** Every cent is counted once *)


Lemma filter_none (A : Type) (f : A -> bool) (l : list A) :
  (forall x, In x l -> f x = false) -> filter f l = [].
Proof.
  induction l as [|x l IH]; intros H; cbn; [reflexivity|].
  rewrite (H x (or_introl eq_refl)). apply IH.
  intros y Hy. apply H. now right.
Qed.





(** The states that a run reaches, each action on a freshly mounted
    screen, meet these conditions when uuids never repeat and the clock
    never answers the empty text. *)
Lemma reached_counts_once (uuids clock : nat -> string)
    (acts : list Action) :
  injective_src uuids ->
  (forall n, clock n <> "") ->
  let w := run acts (fresh_install uuids clock) in
  NoDup (map id (payments_of w))
  /\ forall it, In it (items_of w) ->
       match paymentId it with
       | Some b =>
           truthy (paidAt it) = true
           /\ exists x, In x (payments_of w) /\ id x = b
       | None => truthy (paidAt it) = false
       end.
Proof.
  intros Hinj Hclock w.
  destruct (reached_facts clock acts Hinj) as [Hi [Hf [Hr Hc]]].
  fold w in Hi, Hf, Hr, Hc.
  assert (Hnb : nonblank_times w).
  { apply run_nonblank. split; [exact Hclock | intros ? []]. }
  split; [apply Hf|].
  intros it Hin.
  assert (C : paid_consistent it)
    by (apply (proj1 (Forall_forall _ _) Hc); exact Hin).
  unfold paid_consistent in C.
  destruct (paymentId it) as [b|] eqn:Eb.
  - split; [|now apply (Hr it b)].
    destruct (paidAt it) as [t|] eqn:Et; [|contradiction].
    cbn. apply negb_true_iff, String.eqb_neq. intros ->.
    now apply (proj2 Hnb it Hin).
  - now destruct (paidAt it).
Qed.

(** ** Several removes in one visit *)

(** X19. The payments tab never updates the items it loaded.  When two
    batches with different ids are removed in one visit, the second
    [remove] stores the loaded items with only the second batch cleared:
    the clearing of the first is lost.  Every item of the first batch is
    stored as paid again, while no batch with that id is left. *)
Theorem second_remove_loses_first (p1 p2 : PaymentBatch) (w : World) :
  id p1 <> id p2 ->
  let v0 := PaymentsScreen_mount w in
  let w1 := exec (PaymentsScreen_remove p1 v0) w in
  let v1 := eval (PaymentsScreen_remove p1 v0) w in
  let w2 := exec (PaymentsScreen_remove p2 v1) w1 in
  items_of w1 = map (clear_batch (id p1)) (items_of w)
  /\ items_of w2 = map (clear_batch (id p2)) (items_of w)
  /\ (forall it,
         In it (items_of w) -> paymentId it = Some (id p1) ->
         In it (items_of w2))
  /\ (forall x, In x (payments_of w2) -> id x <> id p1 /\ id x <> id p2).
Proof.
  intros Hne v0 w1 v1 w2.
  assert (E : items_of w2 = map (clear_batch (id p2)) (items_of w)).
  { unfold w2, v1, w1, exec, eval.
    rewrite !PaymentsScreen_remove_run. reflexivity. }
  split; [|split; [exact E | split]].
  - unfold w1, exec. now rewrite PaymentsScreen_remove_run.
  - intros it Hin Hp. rewrite E.
    apply in_map_iff. exists it. split; [|exact Hin].
    apply clear_batch_other. rewrite Hp. intros [= H]. now apply Hne.
  - intros x Hx. unfold w2, v1, w1, exec, eval in Hx.
    rewrite !PaymentsScreen_remove_run in Hx.
    unfold payments_of, eval, usePayments, loadJSON in Hx. cbn in Hx.
    apply filter_In in Hx as [Hx H2]. apply filter_In in Hx as [_ H1].
    apply negb_true_iff, String.eqb_neq in H1, H2. now split.
Qed.

Lemma second_remove_loses_first_witness :
  id batch_1 <> id batch_2
  /\ items_of
       (exec (PaymentsScreen_remove batch_2
                (eval (PaymentsScreen_remove batch_1
                         (PaymentsScreen_mount two_batches_world))
                   two_batches_world))
          (exec (PaymentsScreen_remove batch_1
                   (PaymentsScreen_mount two_batches_world))
             two_batches_world))
     = [sample_B;
        with_paid sample_A (Some "2025-01-02T09:00:00.010Z") (Some "b-1")].
Proof.
  assert (H : id batch_1 <> id batch_2) by discriminate.
  split; [exact H|].
  exact (proj1 (proj2 (second_remove_loses_first batch_1 batch_2
                         two_batches_world H))).
Defined.

(** ** The export, field by field *)

Lemma split_on_length (sep : ascii) (s : string) :
  List.length (split_on sep s) = S (count_char sep s).
Proof.
  induction s as [|c s IH]; [reflexivity|].
  cbn [split_on count_char]. destruct (Ascii.eqb c sep).
  - cbn [List.length]. now rewrite IH.
  - destruct (split_on sep s) as [|f fs]; [discriminate|].
    cbn [List.length] in *. now rewrite IH.
Qed.

Lemma count_char_app (sep : ascii) (a b : string) :
  count_char sep (a ++ b) = count_char sep a + count_char sep b.
Proof.
  induction a as [|c a IH]; [reflexivity|].
  cbn [append count_char]. rewrite IH. lia.
Qed.

Lemma count_char_free (sep : ascii) (s : string) :
  free_of sep s = true -> count_char sep s = 0.
Proof.
  induction s as [|c s IH]; [reflexivity|].
  cbn [free_of count_char]. intros H.
  apply andb_true_iff in H as [Hc Hs]. apply negb_true_iff in Hc.
  now rewrite Hc, IH.
Qed.

(** X13. When the date, the label, [paidAt] and the id of the batch hold
    no comma, a data row of the export splits at its commas into exactly
    the six fields it was made of, and the second field reads back as the
    price. *)
Theorem csv_row_reads_back (p : PaymentBatch) (it : Item) :
  free_of comma (date it) = true ->
  free_of comma (nullish (userLabel it) "") = true ->
  free_of comma (nullish (paidAt it) "") = true ->
  free_of comma (id p) = true ->
  split_on comma (csv_row p it)
  = [ItemType_str (type it);
     String_of_number (priceCents it);
     date it;
     nullish (userLabel it) "";
     nullish (paidAt it) "";
     id p]
  /\ price_column (csv_row p it) = Some (priceCents it).
Proof.
  intros Hd Hl Ht Hp. split; [|apply price_column_row].
  unfold csv_row. cbn [append]. fold comma.
  rewrite split_on_field by (apply free_of_type; cbn; lia).
  rewrite split_on_field by (apply free_of_number; cbn; lia).
  rewrite !split_on_field by assumption.
  now rewrite split_on_free.
Qed.

Lemma csv_row_reads_back_witness :
  free_of comma (date sample_A) = true
  /\ free_of comma (nullish (userLabel sample_A) "") = true
  /\ free_of comma (nullish (paidAt sample_A) "") = true
  /\ free_of comma (id sample_batch) = true
  /\ split_on comma (csv_row sample_batch sample_A)
     = ["Fris"; "70"; "2024-12-31T20:00:00.000Z"; "Koen"; ""; "u-0"].
Proof.
  repeat (split; [reflexivity|]).
  exact (proj1 (csv_row_reads_back sample_batch sample_A
                  eq_refl eq_refl eq_refl eq_refl)).
Defined.

(** X14. Nothing in a row is quoted or escaped: a data row has six
    fields plus one more for every comma in the date, the label,
    [paidAt] and the id of the batch, so a comma in a label shifts the
    fields after it. *)
Theorem csv_row_field_count (p : PaymentBatch) (it : Item) :
  List.length (split_on comma (csv_row p it))
  = 6 + count_char comma (date it)
    + count_char comma (nullish (userLabel it) "")
    + count_char comma (nullish (paidAt it) "")
    + count_char comma (id p).
Proof.
  rewrite split_on_length. unfold csv_row.
  rewrite !count_char_app.
  rewrite (count_char_free comma (ItemType_str (type it)))
    by (apply free_of_type; cbn; lia).
  rewrite (count_char_free comma (String_of_number (priceCents it)))
    by (apply free_of_number; cbn; lia).
  change (count_char comma ",") with 1. lia.
Qed.

(** X15. The export has one row more than the batch has items, and for
    a batch to which no item refers (one whose items were all settled
    again into a later batch, say) the message is the header row alone,
    without a line feed. *)
Theorem export_row_count (items : list Item) (p : PaymentBatch) :
  List.length (shareCSV_rows items p)
  = S (List.length
         (filter (fun it => strict_eq (paymentId it) (id p)) items))
  /\ ((forall it, In it items -> paymentId it <> Some (id p)) ->
      shareCSV items p = csv_header).
Proof.
  split.
  - now rewrite shareCSV_rows_eq, length_cons, length_map.
  - intros H. unfold shareCSV. rewrite shareCSV_rows_eq.
    rewrite filter_none; [reflexivity|].
    intros it Hin. destruct (strict_eq (paymentId it) (id p)) eqn:E;
      [|reflexivity].
    apply strict_eq_spec in E. now apply H in E.
Qed.

Lemma export_row_count_witness :
  (forall it,
      In it (items_of sample_resettled) -> paymentId it <> Some (id sample_batch))
  /\ shareCSV (items_of sample_resettled) sample_batch = csv_header.
Proof.
  assert (H : forall it,
             In it (items_of sample_resettled) ->
             paymentId it <> Some (id sample_batch)).
  { intros it [<-|[<-|[]]]; discriminate. }
  split; [exact H|].
  exact (proj2 (export_row_count (items_of sample_resettled) sample_batch) H).
Defined.

(** ** Storage, at the level of the stored text *)

(** X16. [loadJSON] never fails: for a missing key, an empty text or a
    text that does not parse it answers the fallback.  After [saveJSON]
    of a value whose text is not empty and parses back to it, [loadJSON]
    of the same key answers that value, and the text under every other
    key, in particular under the two other keys of the app, is
    untouched. *)
Theorem loadJSON_after_saveJSON (T : Type) (stringify : T -> string)
    (parse : string -> option T) (key : string) (v fallback : T)
    (st : Raw.Store) :
  parse (stringify v) = Some v ->
  stringify v <> "" ->
  Raw.loadJSON parse key fallback (Raw.saveJSON stringify key v st) = v
  /\ (forall k,
         k <> key ->
         Raw.getItem k (Raw.saveJSON stringify key v st)
         = Raw.getItem k st)
  /\ (forall st' : Raw.Store,
         Raw.getItem key st' = None
         \/ Raw.getItem key st' = Some ""
         \/ (exists r, Raw.getItem key st' = Some r /\ parse r = None) ->
         Raw.loadJSON parse key fallback st' = fallback).
Proof.
  intros Hrt Hne. split; [|split].
  - unfold Raw.loadJSON, Raw.saveJSON, Raw.getItem, Raw.setItem.
    rewrite String.eqb_refl. cbn [truthy].
    apply String.eqb_neq in Hne. now rewrite Hne, Hrt.
  - intros k Hk. unfold Raw.saveJSON, Raw.getItem, Raw.setItem.
    apply String.eqb_neq in Hk. now rewrite Hk.
  - intros st' [H|[H|[r [H Hr]]]]; unfold Raw.loadJSON; rewrite H;
      [reflexivity | reflexivity |].
    cbn [truthy]. rewrite Hr. now destruct (negb (negb (r =? "")%string)).
Qed.

Lemma loadJSON_after_saveJSON_witness :
  parse_number (stringify_number 70) = Some 70%Z
  /\ stringify_number 70 <> ""
  /\ Raw.loadJSON parse_number Raw.K_SETTINGS 0%Z
       (Raw.saveJSON stringify_number Raw.K_SETTINGS 70%Z (fun _ => None))
     = 70%Z.
Proof.
  assert (H1 : parse_number (stringify_number 70) = Some 70%Z)
    by reflexivity.
  assert (H2 : stringify_number 70 <> "") by discriminate.
  split; [exact H1 | split; [exact H2|]].
  exact (proj1 (@loadJSON_after_saveJSON Z stringify_number parse_number
                  Raw.K_SETTINGS 70%Z 0%Z (fun _ => None) H1 H2)).
Defined.

(** ** What the overview shows *)


Lemma includes_refl (s : string) : includes s s = true.
Proof.
  apply includes_spec. exists EmptyString, EmptyString.
  cbn. clear. induction s as [|c s IH]; cbn; [reflexivity | now rewrite <- IH].
Qed.


(** X18. An item that was just added is in the overview, whatever the
    switch, under every search text that is its label up to case, and
    under the empty search text. *)
Theorem added_item_is_found (toLowerCase : string -> string)
    (getTime : string -> Z) (ty : ItemType) (label search : string)
    (onlyUnpaid : bool) (w : World) :
  search = "" \/ toLowerCase search = toLowerCase label ->
  In (mkItem (uuid_src w (uuid_next w)) ty (clock_src w (clock_next w))
        (AddScreen_priceCents ty (settings_of w)) (Some label) None None)
     (filtered toLowerCase
        (sorted getTime (items_of (exec (add ty label) w)))
        onlyUnpaid search).
Proof.
  intros Hs. unfold filtered. apply filter_In. split.
  - apply (Permutation_in _ (Permutation_sym (sorted_perm getTime _))).
    rewrite items_of_add. now left.
  - cbn [paidAt truthy negb]. rewrite orb_true_r. cbn [andb].
    unfold matches_search. cbn [userLabel].
    destruct Hs as [->|E]; [reflexivity|].
    rewrite or_else_empty. cbn [nullish]. rewrite E, includes_refl.
    now rewrite orb_true_r.
Qed.

Lemma added_item_is_found_witness :
  ("KOEN" = "" \/ ascii_toLowerCase "KOEN" = ascii_toLowerCase "Koen")
  /\ In (mkItem "u-0" Fris "2025-01-01T10:00:00.000Z" 70 (Some "Koen")
           None None)
        (filtered ascii_toLowerCase
           (sorted sample_getTime
              (items_of (exec (add Fris "Koen") sample_world)))
           true "KOEN").
Proof.
  assert (H : "KOEN" = ""
              \/ ascii_toLowerCase "KOEN" = ascii_toLowerCase "Koen")
    by (right; reflexivity).
  split; [exact H|].
  exact (@added_item_is_found ascii_toLowerCase sample_getTime Fris "Koen"
           "KOEN" true sample_world H).
Defined.
